(** * Fan3D: physics step, mesh generators and per-face shading

    A shallow embedding of [fan_3d_simulation.py] (class [Fan3D]).

    Numbers.  Python floats are read as real numbers ([R]): the
    development states what the arithmetic of the source computes when no
    rounding takes place.  Python ints that are only used as counters or
    as list indices are [Z] or [nat]; an int that is mixed into float
    arithmetic (the initial [angle = 0], [oscillate_range = 60]) is the
    real number it denotes.

    State.  The attributes of a [Fan3D] object are the fields of the
    record [Fan3D]; a method that assigns attributes is a function from
    the object before the call to the object after it. *)

From Stdlib Require Import Reals Lra Lia ZArith List.
From stdpp Require Import gmap strings.
Import ListNotations.

Local Open Scope R_scope.

(** ** Data model *)

(** A colour is a four element list [[r, g, b, a]] in the source, always
    indexed at 0..3. *)
Record RGBA : Type := mkRGBA { red : R; green : R; blue : R; alpha : R }.

(** One row of a vertex array. *)
Record Vec3 : Type := mkVec3 { vx : R; vy : R; vz : R }.

(** A face is a list of indices into the vertex array of its mesh. *)
Definition Face : Type := list Z.
Definition Mesh : Type := (list Vec3 * list Face)%type.

(** The value stored per fan type in the [configs] dict of
    [configure_fan]. *)
Record FanConfig : Type := mkFanConfig {
  cfg_blade_count : Z;
  cfg_blade_length : R;
  cfg_blade_width : R;
  cfg_motor_radius : R;
  cfg_has_stand : bool;
  cfg_tilt_angle : R
}.

(** The attributes of a [Fan3D] instance, in the order [__init__] and
    [configure_fan] create them. *)
Record Fan3D : Type := mkFan3D {
  fan_type : string;
  angle : R;
  speed : R;
  max_speed : R;
  is_on : bool;
  oscillate : bool;
  oscillate_angle : R;
  oscillate_direction : Z;
  oscillate_range : R;
  blade_count : Z;
  lighting_mode : string;
  blade_length : R;
  blade_width : R;
  motor_radius : R;
  has_stand : bool;
  tilt_angle : R;
  acceleration : R;
  deceleration : R;
  target_speed : R;
  current_speed : R;
  blade_color : RGBA;
  motor_color : RGBA;
  stand_color : RGBA
}.

(** Attribute assignments [self.x = v]. *)
Definition set_current_speed (v : R) (s : Fan3D) : Fan3D :=
  mkFan3D (fan_type s) (angle s) (speed s) (max_speed s) (is_on s)
    (oscillate s) (oscillate_angle s) (oscillate_direction s)
    (oscillate_range s) (blade_count s) (lighting_mode s) (blade_length s)
    (blade_width s) (motor_radius s) (has_stand s) (tilt_angle s)
    (acceleration s) (deceleration s) (target_speed s) v
    (blade_color s) (motor_color s) (stand_color s).

Definition set_angle (v : R) (s : Fan3D) : Fan3D :=
  mkFan3D (fan_type s) v (speed s) (max_speed s) (is_on s)
    (oscillate s) (oscillate_angle s) (oscillate_direction s)
    (oscillate_range s) (blade_count s) (lighting_mode s) (blade_length s)
    (blade_width s) (motor_radius s) (has_stand s) (tilt_angle s)
    (acceleration s) (deceleration s) (target_speed s) (current_speed s)
    (blade_color s) (motor_color s) (stand_color s).

Definition set_oscillate_angle (v : R) (s : Fan3D) : Fan3D :=
  mkFan3D (fan_type s) (angle s) (speed s) (max_speed s) (is_on s)
    (oscillate s) v (oscillate_direction s)
    (oscillate_range s) (blade_count s) (lighting_mode s) (blade_length s)
    (blade_width s) (motor_radius s) (has_stand s) (tilt_angle s)
    (acceleration s) (deceleration s) (target_speed s) (current_speed s)
    (blade_color s) (motor_color s) (stand_color s).

Definition set_oscillate_direction (v : Z) (s : Fan3D) : Fan3D :=
  mkFan3D (fan_type s) (angle s) (speed s) (max_speed s) (is_on s)
    (oscillate s) (oscillate_angle s) v
    (oscillate_range s) (blade_count s) (lighting_mode s) (blade_length s)
    (blade_width s) (motor_radius s) (has_stand s) (tilt_angle s)
    (acceleration s) (deceleration s) (target_speed s) (current_speed s)
    (blade_color s) (motor_color s) (stand_color s).

Definition set_config (c : FanConfig) (s : Fan3D) : Fan3D :=
  mkFan3D (fan_type s) (angle s) (speed s) (max_speed s) (is_on s)
    (oscillate s) (oscillate_angle s) (oscillate_direction s)
    (oscillate_range s) (cfg_blade_count c) (lighting_mode s)
    (cfg_blade_length c) (cfg_blade_width c) (cfg_motor_radius c)
    (cfg_has_stand c) (cfg_tilt_angle c)
    (acceleration s) (deceleration s) (target_speed s) (current_speed s)
    (blade_color s) (motor_color s) (stand_color s).

Definition set_fan_type (v : string) (s : Fan3D) : Fan3D :=
  mkFan3D v (angle s) (speed s) (max_speed s) (is_on s)
    (oscillate s) (oscillate_angle s) (oscillate_direction s)
    (oscillate_range s) (blade_count s) (lighting_mode s) (blade_length s)
    (blade_width s) (motor_radius s) (has_stand s) (tilt_angle s)
    (acceleration s) (deceleration s) (target_speed s) (current_speed s)
    (blade_color s) (motor_color s) (stand_color s).

Definition set_oscillate (v : bool) (s : Fan3D) : Fan3D :=
  mkFan3D (fan_type s) (angle s) (speed s) (max_speed s) (is_on s)
    v (oscillate_angle s) (oscillate_direction s)
    (oscillate_range s) (blade_count s) (lighting_mode s) (blade_length s)
    (blade_width s) (motor_radius s) (has_stand s) (tilt_angle s)
    (acceleration s) (deceleration s) (target_speed s) (current_speed s)
    (blade_color s) (motor_color s) (stand_color s).

Definition set_is_on (v : bool) (s : Fan3D) : Fan3D :=
  mkFan3D (fan_type s) (angle s) (speed s) (max_speed s) v
    (oscillate s) (oscillate_angle s) (oscillate_direction s)
    (oscillate_range s) (blade_count s) (lighting_mode s) (blade_length s)
    (blade_width s) (motor_radius s) (has_stand s) (tilt_angle s)
    (acceleration s) (deceleration s) (target_speed s) (current_speed s)
    (blade_color s) (motor_color s) (stand_color s).

Definition set_target_speed (v : R) (s : Fan3D) : Fan3D :=
  mkFan3D (fan_type s) (angle s) (speed s) (max_speed s) (is_on s)
    (oscillate s) (oscillate_angle s) (oscillate_direction s)
    (oscillate_range s) (blade_count s) (lighting_mode s) (blade_length s)
    (blade_width s) (motor_radius s) (has_stand s) (tilt_angle s)
    (acceleration s) (deceleration s) v (current_speed s)
    (blade_color s) (motor_color s) (stand_color s).

Definition set_lighting_mode (v : string) (s : Fan3D) : Fan3D :=
  mkFan3D (fan_type s) (angle s) (speed s) (max_speed s) (is_on s)
    (oscillate s) (oscillate_angle s) (oscillate_direction s)
    (oscillate_range s) (blade_count s) v (blade_length s)
    (blade_width s) (motor_radius s) (has_stand s) (tilt_angle s)
    (acceleration s) (deceleration s) (target_speed s) (current_speed s)
    (blade_color s) (motor_color s) (stand_color s).

(** ** Numeric primitives of Python and numpy *)

(** [floor x]: the largest integer not above [x]. *)
Definition floor (x : R) : Z := (up x - 1)%Z.

(** [x % m] on floats, for a positive modulus: the remainder has the sign
    of [m]. *)
Definition py_fmod (x m : R) : R := x - IZR (floor (x / m)) * m.

(** [np.clip(x, lo, hi)], that is [minimum(hi, maximum(x, lo))]. *)
Definition np_clip (x lo hi : R) : R := Rmin hi (Rmax x lo).

(** [np.linspace(start, stop, num)] for [num >= 2]: [num] evenly spaced
    samples, the first at [start] and the last at [stop]. *)
Definition np_linspace (start stop : R) (num : nat) : list R :=
  map (fun k => start + INR k * ((stop - start) / INR (num - 1)))
      (seq 0 num).

(** ** [Fan3D.configure_fan] *)

Definition ceiling_config : FanConfig := mkFanConfig 3 1.5 0.3 0.2 false 0.
Definition table_config : FanConfig := mkFanConfig 4 0.8 0.2 0.15 true 15.
Definition tower_config : FanConfig := mkFanConfig 20 0.3 0.1 0.1 true 0.
Definition industrial_config : FanConfig := mkFanConfig 5 2.0 0.4 0.3 true 0.
Definition desk_config : FanConfig := mkFanConfig 3 0.5 0.15 0.1 true 20.

(** The dict literal [configs]. *)
Definition configs : gmap string FanConfig :=
  <["ceiling" := ceiling_config]>
  (<["table" := table_config]>
  (<["tower" := tower_config]>
  (<["industrial" := industrial_config]>
  (<["desk" := desk_config]> ∅)))).

(** [configs['ceiling']]: the default handed to [dict.get]. *)
Definition configs_ceiling : FanConfig := default ceiling_config (configs !! "ceiling"%string).

(** [config = configs.get(self.fan_type, configs['ceiling'])], then the six
    assignments. *)
Definition configure_fan (s : Fan3D) : Fan3D :=
  let config := default configs_ceiling (configs !! fan_type s) in
  set_config config s.

(** ** [Fan3D.update_physics] *)

(** Lines 316-328: the new [current_speed]. *)
Definition update_speed (s : Fan3D) : R :=
  if is_on s then
    if Rlt_dec (current_speed s) (target_speed s) then
      Rmin (target_speed s) (current_speed s + acceleration s)
    else if Rgt_dec (current_speed s) (target_speed s) then
      Rmax (target_speed s) (current_speed s - deceleration s)
    else current_speed s
  else Rmax 0 (current_speed s - deceleration s).

(** Lines 335-344: the oscillation sweep. *)
Definition update_oscillation (s : Fan3D) : Fan3D :=
  if oscillate s then
    let s1 := set_oscillate_angle
                (oscillate_angle s + IZR (oscillate_direction s) * 0.5) s in
    if Rge_dec (Rabs (oscillate_angle s1)) (oscillate_range s1 / 2) then
      let s2 := set_oscillate_direction (oscillate_direction s1 * -1)%Z s1 in
      set_oscillate_angle
        (np_clip (oscillate_angle s2)
                 (- oscillate_range s2 / 2) (oscillate_range s2 / 2)) s2
    else s1
  else s.

Definition update_physics (s : Fan3D) (dt : R) : Fan3D :=
  let s1 := set_current_speed (update_speed s) s in
  let s2 := set_angle (angle s1 + current_speed s1 * dt * PI) s1 in
  let s3 := set_angle (py_fmod (angle s2) (2 * PI)) s2 in
  update_oscillation s3.

(** The host calls [update_physics] once per frame; [run s dts] is the
    object after one call per element of [dts], in order. *)
Definition run (s : Fan3D) (dts : list R) : Fan3D :=
  fold_left update_physics dts s.

(** ** Mesh generators *)

(** [range(n)] as indices. *)
Definition range (n : nat) : list nat := seq 0 n.

Definition num_segments : nat := 20.

(** One sample of the blade profile: the pair (top rail, bottom rail) at
    parameter [t = i / num_segments]. *)
Definition blade_sample (s : Fan3D) (blade_angle : R) (i : nat) : Vec3 * Vec3 :=
  let t := INR i / INR num_segments in
  let r := motor_radius s + t * blade_length s in
  let twist := sin (t * PI) * 15 * PI / 180 in
  let width := blade_width s * (1 - t * 0.5) * sin (t * PI) in
  let x1 := r * cos (blade_angle + twist) - width * sin (blade_angle + twist) in
  let y1 := r * sin (blade_angle + twist) + width * cos (blade_angle + twist) in
  let z1 := sin (t * PI) * 0.1 in
  let x2 := r * cos (blade_angle + twist) + width * sin (blade_angle + twist) in
  let y2 := r * sin (blade_angle + twist) - width * cos (blade_angle + twist) in
  let z2 := - sin (t * PI) * 0.05 in
  (mkVec3 x1 y1 z1, mkVec3 x2 y2 z2).

Definition blade_profile (s : Fan3D) (blade_angle : R) : list (Vec3 * Vec3) :=
  map (blade_sample s blade_angle) (range (num_segments + 1)).

Definition origin : Vec3 := mkVec3 0 0 0.

(** Body of the second loop of [generate_blade]: four vertices and one
    quad per segment, the quad indexed from the current vertex count.
    [blade_profile[i]] and [blade_profile[i + 1]] are in range for every
    [i < num_segments]; the default of [nth] is never returned. *)
Definition blade_segment (profile : list (Vec3 * Vec3)) (m : Mesh) (i : nat) : Mesh :=
  let '(v1_top, v1_bot) := nth i profile (origin, origin) in
  let '(v2_top, v2_bot) := nth (i + 1) profile (origin, origin) in
  let idx := Z.of_nat (length (fst m)) in
  (fst m ++ [v1_top; v2_top; v2_bot; v1_bot],
   snd m ++ [[idx; idx + 1; idx + 2; idx + 3]%Z]).

Definition generate_blade (s : Fan3D) (angle_offset : R) : Mesh :=
  let blade_angle := angle s + angle_offset in
  fold_left (blade_segment (blade_profile s blade_angle))
            (range num_segments) ([], []).

(** A ring of vertices at radius [r] and height [z], one per sample of
    [theta]. *)
Definition ring (theta : list R) (r z : R) : list Vec3 :=
  map (fun t => mkVec3 (r * cos t) (r * sin t) z) theta.

(** The quads [[idx, idx + 1, idx + n_theta + 1, idx + n_theta]] with
    [idx = i * n_theta + j], for [i] below [levels] and [j] below
    [n_theta - 1]. *)
Definition grid_quad (n_theta i j : nat) : Face :=
  let idx := Z.of_nat (i * n_theta + j) in
  let n := Z.of_nat n_theta in
  [idx; idx + 1; idx + n + 1; idx + n]%Z.

Definition grid_faces (levels n_theta : nat) : list Face :=
  flat_map (fun i => map (grid_quad n_theta i) (range (n_theta - 1)))
           (range levels).

Definition height_segments : nat := 5.

Definition motor_theta : list R := np_linspace 0 (2 * PI) 32.

Definition motor_level_z (i : nat) : R := -0.2 + INR i * 0.08.

Definition motor_level_r (s : Fan3D) (i : nat) : R :=
  motor_radius s * (1 + 0.1 * sin (INR i * PI / INR height_segments)).

Definition generate_motor_housing (s : Fan3D) : Mesh :=
  let theta := motor_theta in
  let vertices :=
    flat_map (fun i => ring theta (motor_level_r s i) (motor_level_z i))
             (range (height_segments + 1)) in
  let n_theta := length theta in
  (vertices, grid_faces height_segments n_theta).

Definition stand_theta : list R := np_linspace 0 (2 * PI) 16.

Definition pole_height (s : Fan3D) : R :=
  if String.eqb (fan_type s) "tower" then 2.5 else 1.5.

Definition pole_radius : R := 0.05.
Definition base_radius : R := 0.3.

Definition generate_stand (s : Fan3D) : Mesh :=
  if negb (has_stand s) then ([], [])
  else
    let theta := stand_theta in
    let ph := pole_height s in
    let pole :=
      flat_map (fun z =>
                  let r := pole_radius *
                           (1 + 0.2 * (1 - Rabs (z + ph / 2) / (ph / 2))) in
                  ring theta r z)
               (np_linspace (- ph) (-0.2) 20) in
    let base :=
      flat_map (fun t =>
                  let x := base_radius * cos t in
                  let y := base_radius * sin t in
                  [mkVec3 x y (- ph); mkVec3 (x * 0.9) (y * 0.9) (- ph + 0.05)])
               theta in
    let n_theta := length theta in
    (pole ++ base, grid_faces 19 n_theta).

Definition n_rings : nat := 8.
Definition n_spokes : nat := 16.

Definition cage_quad (i j : nat) : Face :=
  let idx_front := Z.of_nat (j * n_spokes + i) in
  let idx_back := Z.of_nat ((n_rings + j) * n_spokes + i) in
  [idx_front; idx_front + 1; idx_back + 1; idx_back]%Z.

Definition generate_safety_cage (s : Fan3D) : Mesh :=
  let theta := np_linspace 0 (2 * PI) n_spokes in
  let cage_radius := blade_length s + 0.2 in
  let rings (z : R) :=
    flat_map (fun i => ring theta (cage_radius * (INR i + 1) / INR n_rings) z)
             (range n_rings) in
  let faces :=
    flat_map (fun i => map (cage_quad i) (range (n_rings - 1)))
             (range (n_spokes - 1)) in
  (rings 0.05 ++ rings (-0.15), faces).

(** The blade loop of [render]: one call of [generate_blade] per
    [i in range(self.blade_count)], at offset [i * 2 * pi / blade_count]. *)
Definition render_blades (s : Fan3D) : list Mesh :=
  map (fun i => generate_blade s (INR i * 2 * PI / IZR (blade_count s)))
      (range (Z.to_nat (blade_count s))).

(** ** [Fan3D.apply_lighting] *)

(** Indexing a sequence with a Python int: a negative index counts from
    the end, an index outside [-len, len) raises [IndexError] ([None]). *)
Definition py_index {A : Type} (l : list A) (i : Z) : option A :=
  let n := Z.of_nat (length l) in
  if (0 <=? i)%Z then nth_error l (Z.to_nat i)
  else if (- n <=? i)%Z then nth_error l (Z.to_nat (n + i))
  else None.

Definition vsub (a b : Vec3) : Vec3 :=
  mkVec3 (vx a - vx b) (vy a - vy b) (vz a - vz b).

(** A vector divided by a scalar, component by component. *)
Definition vdiv (a : Vec3) (k : R) : Vec3 :=
  mkVec3 (vx a / k) (vy a / k) (vz a / k).

(** [np.cross] on two 3-vectors. *)
Definition np_cross (a b : Vec3) : Vec3 :=
  mkVec3 (vy a * vz b - vz a * vy b)
         (vz a * vx b - vx a * vz b)
         (vx a * vy b - vy a * vx b).

(** [np.dot] on two 3-vectors. *)
Definition np_dot (a b : Vec3) : R :=
  vx a * vx b + vy a * vy b + vz a * vz b.

(** [np.linalg.norm] of a 3-vector. *)
Definition np_norm (a : Vec3) : R := sqrt (np_dot a a).

Definition light_dir : Vec3 :=
  let d := mkVec3 0.5 0.5 1.0 in vdiv d (np_norm d).

(** Lines 282-287: the unit normal of the face, or [[0, 0, 1]] when the
    cross product vanishes. *)
Definition face_normal (v0 v1 v2 : Vec3) : Vec3 :=
  let normal := np_cross (vsub v1 v0) (vsub v2 v0) in
  if Rgt_dec (np_norm normal) 0 then vdiv normal (np_norm normal)
  else mkVec3 0 0 1.

(** Lines 290-301: the intensity of a face with unit normal [normal],
    already clipped. *)
Definition face_intensity (mode : string) (normal : Vec3) : R :=
  let raw :=
    if String.eqb mode "realistic" then
      let diffuse := Rmax 0 (np_dot normal light_dir) in
      let ambient := 0.3 in
      let specular := Rmax 0 (np_dot normal light_dir) ^ 3 * 0.5 in
      ambient + diffuse * 0.7 + specular
    else if String.eqb mode "flat" then 1.0
    else
      let diffuse := Rmax 0 (np_dot normal light_dir) in
      0.2 + diffuse * 0.8 in
  np_clip raw 0 1.

Definition tint (color : RGBA) (intensity : R) : RGBA :=
  mkRGBA (red color * intensity) (green color * intensity)
         (blue color * intensity) (alpha color).

(** The body of the loop over [faces]: [face_colors] after the face has
    been visited, or [None] when an index raises. *)
Definition shade_face (mode : string) (vertices : list Vec3) (color : RGBA)
    (face_colors : list RGBA) (face : Face) : option (list RGBA) :=
  if (length face <? 3)%nat then Some face_colors
  else
    i0 ← py_index face 0;
    i1 ← py_index face 1;
    i2 ← py_index face 2;
    v0 ← py_index vertices i0;
    v1 ← py_index vertices i1;
    v2 ← py_index vertices i2;
    let intensity := face_intensity mode (face_normal v0 v1 v2) in
    Some (face_colors ++ [tint color intensity]).

Definition shade_loop (mode : string) (vertices : list Vec3) (color : RGBA)
    (faces : list Face) : option (list RGBA) :=
  fold_left (fun acc face => face_colors ← acc;
                             shade_face mode vertices color face_colors face)
            faces (Some []).

(** [apply_lighting(vertices, faces, color)]; [None] stands for the
    [IndexError] of a face that points outside the vertex array. *)
Definition apply_lighting (s : Fan3D) (vertices : list Vec3)
    (faces : list Face) (color : RGBA) : option (list RGBA) :=
  if (length vertices =? 0)%nat || (length faces =? 0)%nat then Some []
  else shade_loop (lighting_mode s) vertices color faces.

(** ** [Fan3D.__init__] *)

(** The attributes as [__init__] assigns them.  The five attributes that
    only [configure_fan] creates ([blade_length] to [tilt_angle]) hold a
    placeholder here; [init] overwrites all of them. *)
Definition pre_init (fan_type : string) : Fan3D :=
  mkFan3D fan_type 0 2.0 10.0 true false 0 1 60 3 "realistic"
          0 0 0 false 0 0.1 0.05 2.0 0
          (mkRGBA 0.2 0.3 0.5 0.9) (mkRGBA 0.3 0.3 0.3 1.0)
          (mkRGBA 0.4 0.4 0.4 1.0).

(** The constructor: the attribute defaults, with the six configuration
    attributes as [configure_fan] sets them. *)
Definition init (fan_type : string) : Fan3D := configure_fan (pre_init fan_type).

(** ** The key handler of [FanSimulator.setup_controls] *)

(** [modes.index(mode)]; [None] is the [ValueError] of a mode that is not
    in the list. *)
Fixpoint list_index (x : string) (l : list string) : option nat :=
  match l with
  | [] => None
  | y :: l' => if String.eqb y x then Some 0%nat else S <$> list_index x l'
  end.

Definition modes : list string := ["realistic"; "flat"; "dramatic"]%string.
Definition types : list string :=
  ["ceiling"; "table"; "tower"; "industrial"; "desk"]%string.

(** [on_key(event)] on the fan of the simulator, by [event.key]. *)
Definition on_key (key : string) (s : Fan3D) : option Fan3D :=
  if String.eqb key "up" then
    Some (set_target_speed (Rmin (max_speed s) (target_speed s + 0.5)) s)
  else if String.eqb key "down" then
    Some (set_target_speed (Rmax 0 (target_speed s - 0.5)) s)
  else if String.eqb key " " then
    Some (set_oscillate (negb (oscillate s)) s)
  else if String.eqb key "o" then
    let s1 := set_is_on (negb (is_on s)) s in
    Some (if negb (is_on s1) then set_target_speed 0 s1
          else set_target_speed 2.0 s1)
  else if String.eqb key "l" then
    i ← list_index (lighting_mode s) modes;
    Some (set_lighting_mode
            (nth ((i + 1) mod length modes) modes ""%string) s)
  else
    match list_index key ["1"; "2"; "3"; "4"; "5"]%string with
    | Some k => Some (configure_fan (set_fan_type (nth k types ""%string) s))
    | None => Some s
    end.

(** ** [Fan3D.render] *)

(** A 3x3 array, row by row. *)
Record Mat3 : Type := mkMat3 { row1 : Vec3; row2 : Vec3; row3 : Vec3 }.

(** [np.eye(3)]. *)
Definition np_eye3 : Mat3 :=
  mkMat3 (mkVec3 1 0 0) (mkVec3 0 1 0) (mkVec3 0 0 1).

Definition col1 (m : Mat3) : Vec3 := mkVec3 (vx (row1 m)) (vx (row2 m)) (vx (row3 m)).
Definition col2 (m : Mat3) : Vec3 := mkVec3 (vy (row1 m)) (vy (row2 m)) (vy (row3 m)).
Definition col3 (m : Mat3) : Vec3 := mkVec3 (vz (row1 m)) (vz (row2 m)) (vz (row3 m)).

(** [m.T]. *)
Definition mat_T (m : Mat3) : Mat3 := mkMat3 (col1 m) (col2 m) (col3 m).

(** [v @ m] for a row [v]. *)
Definition vec_mat (v : Vec3) (m : Mat3) : Vec3 :=
  mkVec3 (np_dot v (col1 m)) (np_dot v (col2 m)) (np_dot v (col3 m)).

(** [a @ b]. *)
Definition mat_mul (a b : Mat3) : Mat3 :=
  mkMat3 (vec_mat (row1 a) b) (vec_mat (row2 a) b) (vec_mat (row3 a) b).

(** [vertices @ m], row by row. *)
Definition rows_mat (vertices : list Vec3) (m : Mat3) : list Vec3 :=
  map (fun v => vec_mat v m) vertices.

(** Lines 351-359: the oscillation yaw. *)
Definition oscillation_matrix (s : Fan3D) : Mat3 :=
  if oscillate s then
    let osc_rad := oscillate_angle s * PI / 180 in
    mkMat3 (mkVec3 (cos osc_rad) (- sin osc_rad) 0)
           (mkVec3 (sin osc_rad) (cos osc_rad) 0)
           (mkVec3 0 0 1)
  else np_eye3.

Definition tilt_matrix (s : Fan3D) : Mat3 :=
  let tilt_rad := tilt_angle s * PI / 180 in
  mkMat3 (mkVec3 1 0 0)
         (mkVec3 0 (cos tilt_rad) (- sin tilt_rad))
         (mkVec3 0 (sin tilt_rad) (cos tilt_rad)).

(** Lines 351-369: [rotation_matrix] as the meshes are multiplied by it. *)
Definition rotation_matrix (s : Fan3D) : Mat3 :=
  if Req_dec_T (tilt_angle s) 0 then oscillation_matrix s
  else mat_mul (oscillation_matrix s) (tilt_matrix s).

(** What a [Poly3DCollection] is given to draw: the polygons and their
    face colours, per face or one for all.  Edge colours and line widths
    are constants of the call sites and are left out. *)
Inductive FaceColors : Type :=
| PerFace (colors : list RGBA)
| OneColor (color : RGBA).

Record Collection : Type := mkCollection {
  polys : list (list Vec3);
  facecolors : FaceColors
}.

(** [[[vertices[idx] for idx in face] for face in faces]]. *)
Definition face_vertices (vertices : list Vec3) (faces : list Face)
  : option (list (list Vec3)) :=
  mapM (fun face : Face => mapM (py_index vertices) face) faces.

(** One shaded part of the model: nothing for an empty vertex array,
    otherwise one collection over the vertices as [transform] places
    them. *)
Definition shaded_part (s : Fan3D) (transform : list Vec3 -> list Vec3)
    (m : Mesh) (color : RGBA) : option (list Collection) :=
  if (0 <? length (fst m))%nat then
    let vertices := transform (fst m) in
    fv ← face_vertices vertices (snd m);
    fc ← apply_lighting s vertices (snd m) color;
    Some [mkCollection fv (PerFace fc)]
  else Some [].

Definition cage_facecolor : RGBA := mkRGBA 0.5 0.5 0.5 0.3.

(** Lines 427-440: the cage, for table and desk fans, in one colour. *)
Definition cage_part (s : Fan3D) (transform : list Vec3 -> list Vec3)
  : option (list Collection) :=
  if String.eqb (fan_type s) "table" || String.eqb (fan_type s) "desk" then
    let m := generate_safety_cage s in
    if (0 <? length (fst m))%nat then
      fv ← face_vertices (transform (fst m)) (snd m);
      Some [mkCollection fv (OneColor cage_facecolor)]
    else Some []
  else Some [].

(** [render]: the collections it returns, in order ([None] if an index
    raises).  The blades, the motor housing and the cage are turned by
    [rotation_matrix]; the stand is not. *)
Definition render (s : Fan3D) : option (list Collection) :=
  let turn := fun vertices => rows_mat vertices (mat_T (rotation_matrix s)) in
  blades ← mapM (fun i => shaded_part s turn
                   (generate_blade s (INR i * 2 * PI / IZR (blade_count s)))
                   (blade_color s))
                (range (Z.to_nat (blade_count s)));
  motor ← shaded_part s turn (generate_motor_housing s) (motor_color s);
  stand ← shaded_part s (fun vertices => vertices) (generate_stand s)
            (stand_color s);
  cage ← cage_part s turn;
  Some (concat blades ++ motor ++ stand ++ cage).

(** Lines 443-446: the axis limits [render] sets. *)
Definition max_dim (s : Fan3D) : R :=
  Rmax (blade_length s * 1.5) (if has_stand s then 2.5 else 1).

Definition xy_lim (s : Fan3D) : R * R := (- max_dim s, max_dim s).
Definition z_lim (s : Fan3D) : R * R :=
  ((if has_stand s then - max_dim s else -1), 1).

(** ** [FanSimulator] *)

(** The simulator: its fan and its frame counter. *)
Record FanSimulator : Type := mkSim { fan : Fan3D; frame_count : nat }.

(** [FanSimulator.__init__]. *)
Definition sim_init : FanSimulator := mkSim (init "ceiling") 0.

(** [update(frame)]: one physics step with the default [dt], one render,
    one more frame counted. *)
Definition default_dt : R := 0.016.

Definition update (sim : FanSimulator)
  : option (FanSimulator * list Collection) :=
  let fan' := update_physics (fan sim) default_dt in
  collections ← render fan';
  Some (mkSim fan' (frame_count sim + 1), collections).

(** What the host delivers: a key press or an animation frame. *)
Inductive event : Type :=
| KeyPress (key : string)
| Tick.

Definition handle (sim : FanSimulator) (e : event) : option FanSimulator :=
  match e with
  | KeyPress key =>
      fan' ← on_key key (fan sim); Some (mkSim fan' (frame_count sim))
  | Tick => fst <$> update sim
  end.

Definition handle_all (sim : FanSimulator) (events : list event)
  : option FanSimulator :=
  fold_left (fun acc e => sim' ← acc; handle sim' e) events (Some sim).

(** ** Vocabulary of the properties *)

(** The physics parameters [__init__] installs. *)
Definition stock_rates (s : Fan3D) : Prop :=
  acceleration s = 0.1 /\ deceleration s = 0.05.

(** The angle before the boundary test: one half degree further in the
    current direction. *)
Definition swept (s : Fan3D) : R :=
  oscillate_angle s + IZR (oscillate_direction s) * 0.5.

(** What the sweep maintains. *)
Definition sweeping (s : Fan3D) : Prop :=
  oscillate s = true /\
  - (oscillate_range s / 2) <= oscillate_angle s <= oscillate_range s / 2 /\
  (oscillate_direction s = 1 \/ oscillate_direction s = -1)%Z.

Definition valid_index (n : nat) (i : Z) : Prop := (0 <= i < Z.of_nat n)%Z.

(** Every index of every face points into the vertex array of the same
    mesh. *)
Definition mesh_valid (m : Mesh) : Prop :=
  Forall (Forall (valid_index (length (fst m)))) (snd m).

(** A configuration with no blades and no extent at all. *)
Definition zero_extent_fan : Fan3D :=
  set_config (mkFanConfig 0 0 0 0 false 0) (init "ceiling").

(** The indices Python accepts on a sequence of length [n]. *)
Definition py_valid_index (n : nat) (i : Z) : Prop :=
  (- Z.of_nat n <= i < Z.of_nat n)%Z.

(** The faces the loop of [apply_lighting] does not skip. *)
Definition shaded (face : Face) : bool := (3 <=? length face)%nat.

(** A face can be shaded over [vertices] when the three indices the loop
    reads are indices of [vertices]. *)
Definition readable (vertices : list Vec3) (face : Face) : Prop :=
  shaded face = true ->
  Forall (py_valid_index (length vertices)) (firstn 3 face).

(** What one appended colour is, for the face it comes from. *)
Definition shade_of (s : Fan3D) (vertices : list Vec3) (color : RGBA)
    (face : Face) (c : RGBA) : Prop :=
  exists i0 i1 i2 v0 v1 v2,
    firstn 3 face = [i0; i1; i2] /\
    py_index vertices i0 = Some v0 /\
    py_index vertices i1 = Some v1 /\
    py_index vertices i2 = Some v2 /\
    c = tint color (face_intensity (lighting_mode s) (face_normal v0 v1 v2)).

(** The channels of a shaded colour. *)
Definition dimmed (color c : RGBA) : Prop :=
  exists intensity, 0 <= intensity <= 1 /\
    red c = red color * intensity /\
    green c = green color * intensity /\
    blue c = blue color * intensity /\
    alpha c = alpha color.

(** A triangle, a two-index face that is skipped, and a triangle written
    with a negative index. *)
Definition sample_vertices : list Vec3 :=
  [mkVec3 0 0 0; mkVec3 1 0 0; mkVec3 0 1 0].
Definition sample_faces : list Face := [[0; 1; 2]; [0; 1]; [-1; 0; 1]]%Z.

(** The configuration attributes agree with the entry of [fan_type] in
    [configs] (the ceiling entry for an unknown type). *)
Definition configured (s : Fan3D) : Prop :=
  let c := default configs_ceiling (configs !! fan_type s) in
  blade_count s = cfg_blade_count c /\ blade_length s = cfg_blade_length c /\
  blade_width s = cfg_blade_width c /\ motor_radius s = cfg_motor_radius c /\
  has_stand s = cfg_has_stand c /\ tilt_angle s = cfg_tilt_angle c.

(** What holds of the fan of a running simulator. *)
Definition healthy (s : Fan3D) : Prop :=
  (stock_rates s /\ max_speed s = 10 /\ oscillate_range s = 60) /\
  (0 <= target_speed s <= max_speed s /\
   0 <= current_speed s <= max_speed s) /\
  0 <= angle s < 2 * PI /\
  (- 30 <= oscillate_angle s <= 30 /\
   (oscillate_direction s = 1 \/ oscillate_direction s = -1)%Z) /\
  In (lighting_mode s) modes /\
  configured s.

(** The number of frames among the events. *)
Definition ticks (events : list event) : nat :=
  length (List.filter (fun e => match e with Tick => true | _ => false end)
                      events).

(** A collection whose face colours can be matched to its polygons. *)
Definition aligned (c : Collection) : Prop :=
  match facecolors c with
  | PerFace colors => length colors = length (polys c)
  | OneColor _ => True
  end.

(** Faces of four indices, as every generator makes them. *)
Definition all_quads (faces : list Face) : Prop :=
  Forall (fun face : Face => length face = 4%nat) faces.

(** The four corners of blade segment [i], in the order the loop adds
    them: top rail at [i] and [i + 1], bottom rail at [i + 1] and [i]. *)
Definition blade_quad (s : Fan3D) (blade_angle : R) (i : nat) : list Vec3 :=
  [fst (blade_sample s blade_angle i); fst (blade_sample s blade_angle (i + 1));
   snd (blade_sample s blade_angle (i + 1)); snd (blade_sample s blade_angle i)].

(** The face [[idx, idx + 1, idx + 2, idx + 3]]. *)
Definition quad_at (n : nat) : Face :=
  let idx := Z.of_nat n in [idx; idx + 1; idx + 2; idx + 3]%Z.

(** [m] turns vectors without changing their scalar products. *)
Definition rigid (m : Mat3) : Prop :=
  forall u v, np_dot (vec_mat u (mat_T m)) (vec_mat v (mat_T m)) = np_dot u v.



(** The turn [render] gives to blades, motor housing and cage. *)
Definition turned (s : Fan3D) (vertices : list Vec3) : list Vec3 :=
  rows_mat vertices (mat_T (rotation_matrix s)).

(** [c] is the shaded collection of mesh [m]: its polygons are the faces
    of [m] over the vertices as [transform] places them, and its colours
    are what [apply_lighting] returns for them, one per face. *)
Definition drawn (s : Fan3D) (transform : list Vec3 -> list Vec3) (m : Mesh)
    (color : RGBA) (c : Collection) : Prop :=
  face_vertices (transform (fst m)) (snd m) = Some (polys c) /\
  length (polys c) = length (snd m) /\
  exists fc,
    apply_lighting s (transform (fst m)) (snd m) color = Some fc /\
    facecolors c = PerFace fc /\
    length fc = length (snd m).

(** * Properties *)

(** ** Numeric primitives *)

Lemma floor_spec (x : R) : IZR (floor x) <= x < IZR (floor x) + 1.
Proof.
  unfold floor. rewrite minus_IZR.
  destruct (archimed x) as [Hup Hlow]. lra.
Qed.

Lemma py_fmod_range (x m : R) : 0 < m -> 0 <= py_fmod x m < m.
Proof.
  intros Hm. unfold py_fmod.
  destruct (floor_spec (x / m)) as [Hlo Hhi].
  assert (Hx : x = x / m * m) by (field; lra).
  set (q := x / m) in *. set (f := IZR (floor q)) in *.
  assert (H1 : 0 <= (q - f) * m) by (apply Rmult_le_pos; lra).
  assert (H2 : 0 < (f + 1 - q) * m) by (apply Rmult_lt_0_compat; lra).
  lra.
Qed.

Lemma np_clip_range (x lo hi : R) : lo <= hi -> lo <= np_clip x lo hi <= hi.
Proof.
  intros H. unfold np_clip, Rmin, Rmax.
  repeat destruct Rle_dec; lra.
Qed.

Lemma two_PI_pos : 0 < 2 * PI.
Proof. pose proof PI_RGT_0. lra. Qed.

(** ** Frame of [update_physics] *)

Ltac osc_cases :=
  match goal with
  | s : Fan3D |- _ =>
      destruct s as [? ? ? ? ? osc ? ? ? ? ? ? ? ? ? ? ? ? ? ? ? ? ?];
      unfold update_physics, update_oscillation; simpl;
      destruct osc; [ destruct Rge_dec | ]; simpl
  end.

Lemma update_physics_current_speed (s : Fan3D) (dt : R) :
  current_speed (update_physics s dt) = update_speed s.
Proof. osc_cases; reflexivity. Qed.

Lemma update_physics_target_speed (s : Fan3D) (dt : R) :
  target_speed (update_physics s dt) = target_speed s.
Proof. osc_cases; reflexivity. Qed.

Lemma update_physics_is_on (s : Fan3D) (dt : R) :
  is_on (update_physics s dt) = is_on s.
Proof. osc_cases; reflexivity. Qed.

Lemma update_physics_acceleration (s : Fan3D) (dt : R) :
  acceleration (update_physics s dt) = acceleration s.
Proof. osc_cases; reflexivity. Qed.

Lemma update_physics_deceleration (s : Fan3D) (dt : R) :
  deceleration (update_physics s dt) = deceleration s.
Proof. osc_cases; reflexivity. Qed.

Lemma update_physics_oscillate (s : Fan3D) (dt : R) :
  oscillate (update_physics s dt) = oscillate s.
Proof. osc_cases; reflexivity. Qed.

Lemma update_physics_oscillate_range (s : Fan3D) (dt : R) :
  oscillate_range (update_physics s dt) = oscillate_range s.
Proof. osc_cases; reflexivity. Qed.

Lemma update_physics_angle (s : Fan3D) (dt : R) :
  angle (update_physics s dt) =
  py_fmod (angle s + update_speed s * dt * PI) (2 * PI).
Proof. osc_cases; reflexivity. Qed.

Lemma run_snoc (s : Fan3D) (dts : list R) (dt : R) :
  run s (dts ++ [dt]) = update_physics (run s dts) dt.
Proof. unfold run. rewrite fold_left_app. reflexivity. Qed.

Lemma run_cons (s : Fan3D) (dt : R) (dts : list R) :
  run s (dt :: dts) = run (update_physics s dt) dts.
Proof. reflexivity. Qed.

(** A field that one call leaves alone is left alone by any number of
    calls. *)
Lemma run_preserves {A : Type} (f : Fan3D -> A) :
  (forall s dt, f (update_physics s dt) = f s) ->
  forall dts s, f (run s dts) = f s.
Proof.
  intros Hstep dts. induction dts as [|dt dts IH]; intros s.
  - reflexivity.
  - rewrite run_cons, IH. apply Hstep.
Qed.

(** C10: [update_physics] assigns [current_speed], [angle],
    [oscillate_angle] and [oscillate_direction] only.  Every other
    attribute of the object is the same after the call as before it, and
    with [oscillate] false so are [oscillate_angle] and
    [oscillate_direction]. *)
Theorem update_physics_frame (s : Fan3D) (dt : R) :
  let s' := update_physics s dt in
  (fan_type s' = fan_type s /\ speed s' = speed s /\
   max_speed s' = max_speed s /\ is_on s' = is_on s /\
   oscillate s' = oscillate s /\ oscillate_range s' = oscillate_range s /\
   lighting_mode s' = lighting_mode s /\ target_speed s' = target_speed s /\
   acceleration s' = acceleration s /\ deceleration s' = deceleration s) /\
  (blade_count s' = blade_count s /\ blade_length s' = blade_length s /\
   blade_width s' = blade_width s /\ motor_radius s' = motor_radius s /\
   has_stand s' = has_stand s /\ tilt_angle s' = tilt_angle s) /\
  (blade_color s' = blade_color s /\ motor_color s' = motor_color s /\
   stand_color s' = stand_color s) /\
  (oscillate s = false ->
   oscillate_angle s' = oscillate_angle s /\
   oscillate_direction s' = oscillate_direction s).
Proof.
  cbv zeta. split; [|split; [|split]].
  4: { intros Hosc. destruct s. simpl in Hosc. subst.
       unfold update_physics, update_oscillation. simpl. auto. }
  all: osc_cases; repeat split; reflexivity.
Qed.

Lemma update_physics_frame_witness :
  oscillate (init "ceiling") = false /\
  oscillate_angle (update_physics (init "ceiling") 0.016) = 0 /\
  oscillate_direction (update_physics (init "ceiling") 0.016) = 1%Z.
Proof.
  assert (Hosc : oscillate (init "ceiling") = false) by reflexivity.
  split; [exact Hosc |].
  destruct (update_physics_frame (init "ceiling") 0.016) as (_ & _ & _ & H).
  exact (H Hosc).
Defined.

(** ** Speed easing *)

Ltac split_minmax :=
  unfold Rmin, Rmax, Rabs in *;
  repeat match goal with
         | |- context [Rle_dec ?a ?b] => destruct (Rle_dec a b)
         | |- context [Rcase_abs ?a] => destruct (Rcase_abs a)
         | H : context [Rle_dec ?a ?b] |- _ => destruct (Rle_dec a b)
         | H : context [Rcase_abs ?a] |- _ => destruct (Rcase_abs a)
         end.

Lemma stock_rates_step (s : Fan3D) (dt : R) :
  stock_rates s -> stock_rates (update_physics s dt).
Proof.
  unfold stock_rates.
  rewrite update_physics_acceleration, update_physics_deceleration. auto.
Qed.

Lemma stock_rates_run (s : Fan3D) (dts : list R) :
  stock_rates s -> stock_rates (run s dts).
Proof.
  unfold stock_rates.
  rewrite (run_preserves acceleration update_physics_acceleration).
  rewrite (run_preserves deceleration update_physics_deceleration). auto.
Qed.

Section PoweredOn.

Variable s : Fan3D.
Hypothesis Hon : is_on s = true.
Hypothesis Hrates : stock_rates s.

Let cs := current_speed s.
Let ts := target_speed s.

Lemma on_below : cs < ts -> update_speed s = Rmin ts (cs + 0.1).
Proof.
  intros H. unfold update_speed. rewrite Hon.
  destruct Hrates as [-> _].
  destruct Rlt_dec; [reflexivity | contradiction].
Qed.

Lemma on_above : cs > ts -> update_speed s = Rmax ts (cs - 0.05).
Proof.
  intros H. unfold update_speed. rewrite Hon.
  destruct Hrates as [_ ->].
  destruct Rlt_dec; [subst cs ts; lra |].
  destruct Rgt_dec; [reflexivity | contradiction].
Qed.

Lemma on_equal : cs = ts -> update_speed s = ts.
Proof.
  intros H. unfold update_speed. rewrite Hon.
  destruct Rlt_dec; [subst cs ts; lra |].
  destruct Rgt_dec; [subst cs ts; lra | exact H].
Qed.

(** One call never moves the speed away from the target, never across
    it, and shortens the gap by a full decrement unless it closes it. *)
Lemma on_step_gap :
  (cs <= ts -> cs <= update_speed s <= ts) /\
  (ts <= cs -> ts <= update_speed s <= cs) /\
  Rabs (update_speed s - ts) <= Rmax 0 (Rabs (cs - ts) - 0.05).
Proof.
  destruct (Rtotal_order cs ts) as [Hlt | [Heq | Hgt]].
  - rewrite (on_below Hlt). split_minmax; lra.
  - rewrite (on_equal Heq). split_minmax; lra.
  - rewrite (on_above Hgt). split_minmax; lra.
Qed.

End PoweredOn.

Lemma on_run_fixed (dts : list R) :
  forall s, is_on s = true -> current_speed s = target_speed s ->
  current_speed (run s dts) = target_speed s.
Proof.
  induction dts as [|dt dts IH]; intros s Hon Heq.
  - exact Heq.
  - rewrite run_cons, IH.
    + apply update_physics_target_speed.
    + rewrite update_physics_is_on. exact Hon.
    + rewrite update_physics_current_speed, update_physics_target_speed.
      unfold update_speed. rewrite Hon.
      destruct Rlt_dec; [lra |]. destruct Rgt_dec; [lra | exact Heq].
Qed.

Lemma on_run_settles (n : nat) :
  forall s, is_on s = true -> stock_rates s ->
  Rabs (current_speed s - target_speed s) <= INR n * 0.05 ->
  forall dts, (n <= length dts)%nat ->
  current_speed (run s dts) = target_speed s.
Proof.
  induction n as [|n IH]; intros s Hon Hrates Hgap dts Hlen.
  - apply on_run_fixed; [exact Hon |].
    simpl in Hgap. split_minmax; lra.
  - destruct dts as [|dt dts]; [simpl in Hlen; lia |].
    rewrite run_cons, IH.
    + apply update_physics_target_speed.
    + rewrite update_physics_is_on. exact Hon.
    + apply stock_rates_step, Hrates.
    + rewrite update_physics_current_speed, update_physics_target_speed.
      destruct (on_step_gap s Hon Hrates) as (_ & _ & Hstep).
      rewrite S_INR in Hgap.
      eapply Rle_trans; [exact Hstep |].
      pose proof (pos_INR n). split_minmax; lra.
    + simpl in Hlen. lia.
Qed.

(** Every non-negative real is below some multiple of the decrement. *)
Lemma steps_enough (d : R) : 0 <= d -> exists n : nat, d <= INR n * 0.05.
Proof.
  intros Hd. exists (Z.to_nat (up (d / 0.05))).
  destruct (archimed (d / 0.05)) as [Hup _].
  assert (Hq : d / 0.05 = d * 20) by lra.
  assert (Hpos : (0 <= up (d / 0.05))%Z) by (apply le_IZR; lra).
  rewrite INR_IZR_INZ, Z2Nat.id by exact Hpos. lra.
Qed.

(** C1: with the fan on, one call moves [current_speed] to
    [min(target, current + 0.1)] from below the target, to
    [max(target, current - 0.05)] from above it, and keeps it when it is
    at the target.  Across any sequence of calls the speed is monotone
    and stays on its side of the (unchanged) target, and after finitely
    many calls it equals the target and stays there. *)
Theorem update_physics_on_converges (s : Fan3D) :
  is_on s = true -> stock_rates s ->
  let ts := target_speed s in
  (forall dts dt,
     let a := run s dts in
     let b := update_physics a dt in
     target_speed b = ts /\
     (current_speed a < ts ->
      current_speed b = Rmin ts (current_speed a + 0.1) /\
      current_speed a < current_speed b <= ts) /\
     (current_speed a > ts ->
      current_speed b = Rmax ts (current_speed a - 0.05) /\
      ts <= current_speed b < current_speed a) /\
     (current_speed a = ts -> current_speed b = ts) /\
     (current_speed s <= ts -> current_speed a <= current_speed b <= ts) /\
     (ts <= current_speed s -> ts <= current_speed b <= current_speed a)) /\
  (exists n : nat, forall dts, (n <= length dts)%nat ->
     current_speed (run s dts) = ts).
Proof.
  intros Hon Hrates ts. split.
  - intros dts. induction dts as [|d dts IH] using rev_ind; intros dt a b.
    + subst a b. simpl run.
      rewrite update_physics_current_speed, update_physics_target_speed.
      destruct (on_step_gap s Hon Hrates) as (Hlo & Hhi & _).
      fold ts in Hlo, Hhi |- *.
      split; [reflexivity |].
      split; [intros H; rewrite (on_below s Hon Hrates H); fold ts;
              split; [reflexivity | split_minmax; lra] |].
      split; [intros H; rewrite (on_above s Hon Hrates H); fold ts;
              split; [reflexivity | split_minmax; lra] |].
      split; [intros H; apply (on_equal s Hon H) |].
      split; assumption.
    + assert (Hon' : is_on a = true).
      { subst a. rewrite (run_preserves is_on update_physics_is_on). exact Hon. }
      assert (Hrates' : stock_rates a) by (apply stock_rates_run, Hrates).
      assert (Hts : target_speed a = ts).
      { subst a. apply (run_preserves target_speed update_physics_target_speed). }
      destruct (on_step_gap a Hon' Hrates') as (Hlo & Hhi & _).
      rewrite Hts in Hlo, Hhi.
      specialize (IH d). cbv zeta in IH.
      destruct IH as (_ & _ & _ & _ & Hup & Hdown).
      fold (run s (dts ++ [d])) in *.
      rewrite <- run_snoc in Hup, Hdown. fold a in Hup, Hdown.
      subst b. rewrite update_physics_current_speed, update_physics_target_speed.
      split; [exact Hts |].
      split; [intros H; rewrite on_below; rewrite ?Hts; auto;
              split; [reflexivity | split_minmax; lra] |].
      split; [intros H; rewrite on_above; rewrite ?Hts; auto;
              split; [reflexivity | split_minmax; lra] |].
      split; [intros H; rewrite <- Hts; apply on_equal; [auto | lra] |].
      split; intros H.
      * apply Hlo. apply Hup, H.
      * apply Hhi. apply Hdown, H.
  - destruct (steps_enough (Rabs (current_speed s - ts)) (Rabs_pos _)) as [n Hn].
    exists n. intros dts Hlen. apply (on_run_settles n); assumption.
Qed.

Lemma update_physics_on_converges_witness :
  is_on (init "ceiling") = true /\ stock_rates (init "ceiling") /\
  exists n : nat, forall dts, (n <= length dts)%nat ->
    current_speed (run (init "ceiling") dts) = target_speed (init "ceiling").
Proof.
  assert (Hon : is_on (init "ceiling") = true) by reflexivity.
  assert (Hrates : stock_rates (init "ceiling")) by (split; reflexivity).
  split; [exact Hon |]. split; [exact Hrates |].
  exact (proj2 (update_physics_on_converges (init "ceiling") Hon Hrates)).
Defined.

(** The first end-to-end scenario of the specification: a table fan, on,
    target 2.0, after 100 frames of 16 ms runs at exactly 2.0. *)
Example table_fan_100_frames :
  current_speed (run (init "table") (repeat 0.016 100)) = 2.0.
Proof.
  change 2.0 with (target_speed (init "table")).
  apply (on_run_settles 40).
  - reflexivity.
  - split; reflexivity.
  - change (current_speed (init "table")) with 0.
    change (target_speed (init "table")) with 2.0.
    replace (INR 40) with 40 by (simpl; lra).
    split_minmax; lra.
  - rewrite repeat_length. lia.
Qed.

Section PoweredOff.

Variable s : Fan3D.
Hypothesis Hoff : is_on s = false.
Hypothesis Hrates : stock_rates s.

Lemma off_step : update_speed s = Rmax 0 (current_speed s - 0.05).
Proof.
  unfold update_speed. rewrite Hoff.
  destruct Hrates as [_ ->]. reflexivity.
Qed.

Lemma off_step_range :
  0 <= current_speed s -> 0 <= update_speed s <= current_speed s.
Proof. intros H. rewrite off_step. split_minmax; lra. Qed.

End PoweredOff.

Lemma off_run_nonneg (dts : list R) :
  forall s, is_on s = false -> stock_rates s -> 0 <= current_speed s ->
  0 <= current_speed (run s dts).
Proof.
  induction dts as [|dt dts IH]; intros s Hoff Hrates Hcs.
  - exact Hcs.
  - rewrite run_cons. apply IH.
    + rewrite update_physics_is_on. exact Hoff.
    + apply stock_rates_step, Hrates.
    + rewrite update_physics_current_speed.
      apply (off_step_range s Hoff Hrates Hcs).
Qed.

Lemma off_run_stops (n : nat) :
  forall s, is_on s = false -> stock_rates s ->
  0 <= current_speed s <= INR n * 0.05 ->
  forall dts, (n <= length dts)%nat -> current_speed (run s dts) = 0.
Proof.
  induction n as [|n IH]; intros s Hoff Hrates Hcs dts Hlen.
  - simpl in Hcs. revert s Hoff Hrates Hcs.
    clear Hlen. induction dts as [|dt dts IHd]; intros s Hoff Hrates Hcs.
    + simpl. lra.
    + rewrite run_cons. apply IHd.
      * rewrite update_physics_is_on. exact Hoff.
      * apply stock_rates_step, Hrates.
      * rewrite update_physics_current_speed, (off_step s Hoff Hrates).
        split_minmax; lra.
  - destruct dts as [|dt dts]; [simpl in Hlen; lia |].
    rewrite run_cons. apply IH.
    + rewrite update_physics_is_on. exact Hoff.
    + apply stock_rates_step, Hrates.
    + rewrite update_physics_current_speed, (off_step s Hoff Hrates).
      rewrite S_INR in Hcs. pose proof (pos_INR n). split_minmax; lra.
    + simpl in Hlen. lia.
Qed.

(** C5: with the fan off and a non-negative speed, whatever the target
    is, each call replaces [current_speed] by [max(0, current - 0.05)],
    so the speed never increases and never goes below 0; after finitely
    many calls it is exactly 0 and every later call leaves it at 0. *)
Theorem update_physics_off_decays (s : Fan3D) :
  is_on s = false -> stock_rates s -> 0 <= current_speed s ->
  (forall dts dt,
     let a := run s dts in
     let b := update_physics a dt in
     current_speed b = Rmax 0 (current_speed a - 0.05) /\
     0 <= current_speed b <= current_speed a) /\
  (exists n : nat, forall dts, (n <= length dts)%nat ->
     current_speed (run s dts) = 0).
Proof.
  intros Hoff Hrates Hcs. split.
  - intros dts dt a b.
    assert (Hoff' : is_on a = false).
    { subst a. rewrite (run_preserves is_on update_physics_is_on). exact Hoff. }
    assert (Hrates' : stock_rates a) by (apply stock_rates_run, Hrates).
    assert (Hcs' : 0 <= current_speed a) by (apply off_run_nonneg; assumption).
    subst b. rewrite update_physics_current_speed.
    split; [apply off_step; assumption | apply off_step_range; assumption].
  - destruct (steps_enough (current_speed s) Hcs) as [n Hn].
    exists n. intros dts Hlen. apply (off_run_stops n); auto.
Qed.

Lemma update_physics_off_decays_witness :
  let off := set_target_speed 7.5
               (set_is_on false (set_current_speed 2.0 (init "desk"))) in
  (is_on off = false /\ stock_rates off /\ 0 <= current_speed off) /\
  exists n : nat, forall dts, (n <= length dts)%nat ->
    current_speed (run off dts) = 0.
Proof.
  intros off.
  assert (Hoff : is_on off = false) by reflexivity.
  assert (Hrates : stock_rates off) by (split; reflexivity).
  assert (Hcs : 0 <= current_speed off) by (simpl; lra).
  split; [auto |].
  exact (proj2 (update_physics_off_decays off Hoff Hrates Hcs)).
Defined.

(** ** Rotation angle *)





(** ** Oscillation sweep *)

Lemma update_physics_oscillation (s : Fan3D) (dt : R) :
  oscillate_angle (update_physics s dt) = oscillate_angle (update_oscillation s) /\
  oscillate_direction (update_physics s dt) =
  oscillate_direction (update_oscillation s).
Proof.
  destruct s as [? ? ? ? ? osc ? ? ? ? ? ? ? ? ? ? ? ? ? ? ? ? ?].
  unfold update_physics, update_oscillation. simpl.
  destruct osc; [destruct Rge_dec |]; simpl; auto.
Qed.

Lemma oscillation_inside (s : Fan3D) :
  oscillate s = true -> Rabs (swept s) < oscillate_range s / 2 ->
  oscillate_angle (update_oscillation s) = swept s /\
  oscillate_direction (update_oscillation s) = oscillate_direction s.
Proof.
  intros Hosc Hin. unfold update_oscillation. rewrite Hosc.
  destruct s; simpl in *. unfold swept in Hin. simpl in Hin.
  destruct Rge_dec; [lra | simpl; auto].
Qed.

Lemma oscillation_turn (s : Fan3D) :
  oscillate s = true -> Rabs (swept s) >= oscillate_range s / 2 ->
  oscillate_angle (update_oscillation s) =
    np_clip (swept s) (- oscillate_range s / 2) (oscillate_range s / 2) /\
  oscillate_direction (update_oscillation s) = (- oscillate_direction s)%Z.
Proof.
  intros Hosc Hout. unfold update_oscillation. rewrite Hosc.
  destruct s; simpl in *. unfold swept in *. simpl in *.
  destruct Rge_dec; [simpl; split; [reflexivity | lia] | contradiction].
Qed.

Lemma sweep_step (s : Fan3D) (dt : R) :
  sweeping s ->
  let b := update_physics s dt in
  let h := oscillate_range s / 2 in
  sweeping b /\
  (Rabs (swept s) < h ->
   oscillate_angle b = swept s /\
   oscillate_direction b = oscillate_direction s) /\
  (Rabs (swept s) >= h ->
   oscillate_angle b = IZR (oscillate_direction s) * h /\
   oscillate_direction b = (- oscillate_direction s)%Z).
Proof.
  intros (Hosc & Hang & Hdir) b h.
  destruct (update_physics_oscillation s dt) as [Ea Ed]. fold b in Ea, Ed.
  assert (Hin : Rabs (swept s) < h ->
                oscillate_angle b = swept s /\
                oscillate_direction b = oscillate_direction s).
  { intros H. rewrite Ea, Ed. apply oscillation_inside; assumption. }
  assert (Hout : Rabs (swept s) >= h ->
                 oscillate_angle b = IZR (oscillate_direction s) * h /\
                 oscillate_direction b = (- oscillate_direction s)%Z).
  { intros H. rewrite Ea, Ed.
    destruct (oscillation_turn s Hosc H) as [-> ->].
    split; [| reflexivity].
    fold h in Hang. unfold swept in *.
    replace (- oscillate_range s / 2) with (- h) by (unfold h; lra).
    fold h. unfold np_clip.
    destruct Hdir as [Hd | Hd]; rewrite Hd in *; split_minmax; lra. }
  split; [| split; assumption].
  unfold sweeping. subst b.
  rewrite update_physics_oscillate, update_physics_oscillate_range.
  fold h. fold h in Hang.
  split; [exact Hosc |].
  destruct (Rlt_dec (Rabs (swept s)) h) as [Hlt | Hge].
  - destruct (Hin Hlt) as [-> ->]. split; [split_minmax; lra | exact Hdir].
  - destruct (Hout (Rnot_lt_ge _ _ Hge)) as [-> ->].
    destruct Hdir as [Hd | Hd]; rewrite Hd in *; (split; [lra | lia]).
Qed.

Lemma sweep_run (dts : list R) :
  forall s, sweeping s ->
  sweeping (run s dts) /\ oscillate_range (run s dts) = oscillate_range s.
Proof.
  induction dts as [|dt dts IH]; intros s Hs.
  - split; [exact Hs | reflexivity].
  - rewrite run_cons.
    destruct (IH (update_physics s dt)) as [Hinv Hrange].
    + apply (sweep_step s dt Hs).
    + split; [exact Hinv |].
      rewrite Hrange. apply update_physics_oscillate_range.
Qed.

(** C3: with [oscillate] set, starting inside the range with direction
    [+1] or [-1], every call first adds [direction * 0.5] to
    [oscillate_angle].  When the magnitude of that sum is below half the
    range it is the new angle and the direction is kept; when it has
    reached half the range the direction changes sign and the new angle is
    the boundary on the side of travel.  In both cases the magnitude of
    the angle is at most half the range and the direction is [+1] or
    [-1]. *)
Theorem oscillation_bounded (s : Fan3D) :
  oscillate s = true ->
  - (oscillate_range s / 2) <= oscillate_angle s <= oscillate_range s / 2 ->
  (oscillate_direction s = 1 \/ oscillate_direction s = -1)%Z ->
  forall dts dt,
    let a := run s dts in
    let b := update_physics a dt in
    let h := oscillate_range s / 2 in
    let moved := oscillate_angle a + IZR (oscillate_direction a) * 0.5 in
    Rabs (oscillate_angle b) <= h /\
    (oscillate_direction b = 1 \/ oscillate_direction b = -1)%Z /\
    (Rabs moved < h ->
     oscillate_angle b = moved /\
     oscillate_direction b = oscillate_direction a) /\
    (Rabs moved >= h ->
     oscillate_angle b = IZR (oscillate_direction a) * h /\
     oscillate_direction b = (- oscillate_direction a)%Z).
Proof.
  intros Hosc Hang Hdir dts dt a b h moved.
  assert (Hs : sweeping s) by (repeat split; tauto).
  destruct (sweep_run dts s Hs) as [Ha Hrange]. fold a in Ha, Hrange.
  destruct (sweep_step a dt Ha) as ((_ & Hb & Hd) & Hin & Hout).
  fold b in Hb, Hd, Hin, Hout.
  rewrite Hrange in Hin, Hout. fold h in Hin, Hout.
  assert (Hrb : oscillate_range b = oscillate_range s).
  { subst b. rewrite update_physics_oscillate_range. exact Hrange. }
  rewrite Hrb in Hb. fold h in Hb.
  split; [split_minmax; lra |].
  split; [exact Hd |].
  split; assumption.
Qed.

Lemma oscillation_bounded_witness :
  let s := set_oscillate true (init "table") in
  (oscillate s = true /\
   - (oscillate_range s / 2) <= oscillate_angle s <= oscillate_range s / 2 /\
   (oscillate_direction s = 1 \/ oscillate_direction s = -1)%Z) /\
  forall dts dt,
    Rabs (oscillate_angle (update_physics (run s dts) dt)) <= 30.
Proof.
  intros s.
  assert (Hosc : oscillate s = true) by reflexivity.
  assert (Hang : - (oscillate_range s / 2) <= oscillate_angle s
                 <= oscillate_range s / 2) by (simpl; lra).
  assert (Hdir : (oscillate_direction s = 1 \/ oscillate_direction s = -1)%Z)
    by (left; reflexivity).
  split; [auto |].
  intros dts dt.
  replace 30 with (oscillate_range s / 2) by (simpl; lra).
  exact (proj1 (oscillation_bounded s Hosc Hang Hdir dts dt)).
Defined.

(** ** Unknown fan types *)

Lemma configs_ceiling_eq : configs_ceiling = ceiling_config.
Proof. reflexivity. Qed.

Lemma configs_unknown (name : string) :
  ~ In name types -> configs !! name = None.
Proof.
  intros Hout. unfold configs.
  rewrite !lookup_insert_ne; [apply lookup_empty | ..];
    intros E; subst name; apply Hout; simpl; tauto.
Qed.

(** C8: for a name that is none of the five keys of [configs],
    [configure_fan] (a total function) installs the six configuration
    attributes of the ceiling fan, the same as with the name
    ["ceiling"]. *)
Theorem configure_fan_unknown (name : string) (s : Fan3D) :
  ~ In name types ->
  let u := configure_fan (set_fan_type name s) in
  let c := configure_fan (set_fan_type "ceiling" s) in
  (blade_count u = blade_count c /\ blade_length u = blade_length c /\
   blade_width u = blade_width c /\ motor_radius u = motor_radius c /\
   has_stand u = has_stand c /\ tilt_angle u = tilt_angle c) /\
  (blade_count u = 3%Z /\ blade_length u = 1.5 /\ blade_width u = 0.3 /\
   motor_radius u = 0.2 /\ has_stand u = false /\ tilt_angle u = 0).
Proof.
  intros Hout u c. subst u c. unfold configure_fan.
  change (fan_type (set_fan_type name s)) with name.
  rewrite (configs_unknown name Hout).
  repeat split; reflexivity.
Qed.

Lemma configure_fan_unknown_witness :
  ~ In "pedestal"%string types /\
  blade_length (configure_fan (set_fan_type "pedestal" (init "tower"))) = 1.5.
Proof.
  assert (Hout : ~ In "pedestal"%string types).
  { simpl. intros H. repeat destruct H as [H | H]; try discriminate H. exact H. }
  split; [exact Hout |].
  apply (configure_fan_unknown "pedestal" (init "tower") Hout).
Defined.

(** ** Mesh sizes *)

Section Grids.

Context {A B : Type}.

Lemma length_flat_map_const (f : A -> list B) (k : nat) (l : list A) :
  (forall x, length (f x) = k) ->
  length (flat_map f l) = (length l * k)%nat.
Proof.
  intros Hk. induction l as [|x l IH]; simpl.
  - reflexivity.
  - rewrite length_app, Hk, IH. lia.
Qed.

(** Row [i], column [j] of a grid laid out row after row. *)
Lemma nth_error_flat_map_const (f : A -> list B) (k : nat) (l : list A) :
  (forall x, length (f x) = k) ->
  forall i j x, nth_error l i = Some x -> (j < k)%nat ->
  nth_error (flat_map f l) (i * k + j) = nth_error (f x) j.
Proof.
  intros Hk. induction l as [|y l IH]; intros i j x Hi Hj.
  - destruct i; discriminate Hi.
  - destruct i as [|i]; simpl in Hi |- *.
    + injection Hi as ->.
      apply nth_error_app1. rewrite Hk. exact Hj.
    + rewrite nth_error_app2 by (rewrite Hk; lia).
      rewrite Hk. replace (k + i * k + j - k)%nat with (i * k + j)%nat by lia.
      apply IH; assumption.
Qed.

End Grids.

Lemma nth_error_range (n i : nat) : (i < n)%nat -> nth_error (range n) i = Some i.
Proof.
  intros H. unfold range.
  rewrite (nth_error_nth' _ 0%nat) by (rewrite length_seq; exact H).
  rewrite seq_nth by exact H. reflexivity.
Qed.

Lemma length_range (n : nat) : length (range n) = n.
Proof. apply length_seq. Qed.

Lemma length_np_linspace (a b : R) (n : nat) : length (np_linspace a b n) = n.
Proof. unfold np_linspace. rewrite length_map. apply length_seq. Qed.

Lemma nth_error_np_linspace (a b : R) (n j : nat) :
  (j < n)%nat ->
  nth_error (np_linspace a b n) j = Some (a + INR j * ((b - a) / INR (n - 1))).
Proof.
  intros H. unfold np_linspace.
  rewrite nth_error_map. fold (range n). rewrite (nth_error_range n j H).
  reflexivity.
Qed.

Lemma length_ring (theta : list R) (r z : R) :
  length (ring theta r z) = length theta.
Proof. apply length_map. Qed.

Lemma length_grid_faces (levels n_theta : nat) :
  length (grid_faces levels n_theta) = (levels * (n_theta - 1))%nat.
Proof.
  unfold grid_faces.
  rewrite (length_flat_map_const _ (n_theta - 1)).
  - rewrite length_range. reflexivity.
  - intros i. rewrite length_map. apply length_range.
Qed.

Lemma nth_error_grid_faces (levels n_theta i j : nat) :
  (i < levels)%nat -> (j < n_theta - 1)%nat ->
  nth_error (grid_faces levels n_theta) (i * (n_theta - 1) + j) =
  Some (grid_quad n_theta i j).
Proof.
  intros Hi Hj. unfold grid_faces.
  rewrite (nth_error_flat_map_const _ (n_theta - 1) _
             (fun x => eq_trans (length_map _ _) (length_range _))
             i j i (nth_error_range levels i Hi) Hj).
  rewrite nth_error_map, (nth_error_range _ j Hj). reflexivity.
Qed.

(** [generate_blade]: the loop adds four vertices and one face per
    segment. *)
Lemma blade_segment_sizes (profile : list (Vec3 * Vec3)) (m : Mesh) (i : nat) :
  length (fst (blade_segment profile m i)) = (length (fst m) + 4)%nat /\
  length (snd (blade_segment profile m i)) = (length (snd m) + 1)%nat.
Proof.
  unfold blade_segment.
  destruct (nth i profile _) as [a b], (nth (i + 1) profile _) as [c d].
  simpl. rewrite !length_app. simpl. lia.
Qed.

Lemma blade_loop_sizes (profile : list (Vec3 * Vec3)) (l : list nat) :
  forall m,
  length (fst (fold_left (blade_segment profile) l m)) =
    (length (fst m) + 4 * length l)%nat /\
  length (snd (fold_left (blade_segment profile) l m)) =
    (length (snd m) + length l)%nat.
Proof.
  induction l as [|i l IH]; intros m; simpl.
  - lia.
  - destruct (IH (blade_segment profile m i)) as [Hv Hf].
    destruct (blade_segment_sizes profile m i) as [Hv1 Hf1].
    rewrite Hv, Hf, Hv1, Hf1. lia.
Qed.

Lemma generate_blade_sizes (s : Fan3D) (angle_offset : R) :
  length (fst (generate_blade s angle_offset)) = 80%nat /\
  length (snd (generate_blade s angle_offset)) = 20%nat.
Proof.
  unfold generate_blade.
  destruct (blade_loop_sizes (blade_profile s (angle s + angle_offset))
              (range num_segments) ([], [])) as [Hv Hf].
  rewrite Hv, Hf, length_range. split; reflexivity.
Qed.

Lemma length_motor_theta : length motor_theta = 32%nat.
Proof. apply length_np_linspace. Qed.

Lemma generate_motor_housing_sizes (s : Fan3D) :
  length (fst (generate_motor_housing s)) = 192%nat /\
  length (snd (generate_motor_housing s)) = 155%nat.
Proof.
  unfold generate_motor_housing. cbn [fst snd]. split.
  - rewrite (length_flat_map_const _ 32).
    + rewrite length_range. reflexivity.
    + intros i. rewrite length_ring. apply length_motor_theta.
  - rewrite length_grid_faces, length_motor_theta. reflexivity.
Qed.

Lemma length_stand_theta : length stand_theta = 16%nat.
Proof. apply length_np_linspace. Qed.

Lemma generate_stand_sizes (s : Fan3D) :
  has_stand s = true ->
  length (fst (generate_stand s)) = 352%nat /\
  length (snd (generate_stand s)) = 285%nat.
Proof.
  intros Hs. unfold generate_stand. rewrite Hs. cbn [negb fst snd]. split.
  - rewrite length_app.
    rewrite (length_flat_map_const _ 16)
      by (intros z; rewrite length_ring; apply length_stand_theta).
    rewrite (length_flat_map_const _ 2) by reflexivity.
    rewrite length_np_linspace, length_stand_theta. reflexivity.
  - rewrite length_grid_faces, length_stand_theta. reflexivity.
Qed.

Lemma generate_safety_cage_sizes (s : Fan3D) :
  length (fst (generate_safety_cage s)) = 256%nat /\
  length (snd (generate_safety_cage s)) = 105%nat.
Proof.
  unfold generate_safety_cage. cbn [fst snd]. split.
  - rewrite length_app.
    rewrite !(length_flat_map_const _ 16)
      by (intros i; rewrite length_ring; apply length_np_linspace).
    rewrite length_range. reflexivity.
  - rewrite (length_flat_map_const _ 7)
      by (intros i; rewrite length_map; apply length_range).
    rewrite length_range. reflexivity.
Qed.

(** ** Face indices *)

Lemma valid_index_mono (n n' : nat) (i : Z) :
  (n <= n')%nat -> valid_index n i -> valid_index n' i.
Proof. unfold valid_index. lia. Qed.

Lemma faces_valid_mono (n n' : nat) (faces : list Face) :
  (n <= n')%nat ->
  Forall (Forall (valid_index n)) faces ->
  Forall (Forall (valid_index n')) faces.
Proof.
  intros Hn. apply List.Forall_impl. intros face. apply List.Forall_impl.
  intros i. apply valid_index_mono, Hn.
Qed.

Lemma grid_faces_valid (levels n_theta nverts : nat) :
  ((levels + 1) * n_theta <= nverts)%nat ->
  Forall (Forall (valid_index nverts)) (grid_faces levels n_theta).
Proof.
  intros Hn. apply List.Forall_forall. intros face Hin.
  unfold grid_faces in Hin. apply List.in_flat_map in Hin.
  destruct Hin as (i & Hi & Hin).
  apply List.in_map_iff in Hin. destruct Hin as (j & <- & Hj).
  apply List.in_seq in Hi, Hj.
  unfold grid_quad, valid_index.
  assert (Hrow : (i * n_theta + n_theta <= levels * n_theta)%nat) by nia.
  repeat constructor; lia.
Qed.

Lemma blade_segment_valid (profile : list (Vec3 * Vec3)) (m : Mesh) (i : nat) :
  mesh_valid m -> mesh_valid (blade_segment profile m i).
Proof.
  unfold mesh_valid, blade_segment. intros Hm.
  destruct (nth i profile _) as [a b], (nth (i + 1) profile _) as [c d].
  cbn [fst snd]. rewrite length_app. cbn [length].
  apply Forall_app. split.
  - apply (faces_valid_mono (length (fst m))); [lia | exact Hm].
  - unfold valid_index. repeat constructor; lia.
Qed.

Lemma blade_loop_valid (profile : list (Vec3 * Vec3)) (l : list nat) :
  forall m, mesh_valid m -> mesh_valid (fold_left (blade_segment profile) l m).
Proof.
  induction l as [|i l IH]; intros m Hm; simpl.
  - exact Hm.
  - apply IH, blade_segment_valid, Hm.
Qed.

Lemma generate_blade_valid (s : Fan3D) (angle_offset : R) :
  mesh_valid (generate_blade s angle_offset).
Proof. apply blade_loop_valid. constructor. Qed.

Lemma generate_motor_housing_valid (s : Fan3D) :
  mesh_valid (generate_motor_housing s).
Proof.
  unfold mesh_valid.
  rewrite (proj1 (generate_motor_housing_sizes s)).
  unfold generate_motor_housing. cbn [snd].
  apply grid_faces_valid. rewrite length_motor_theta. simpl. lia.
Qed.

Lemma generate_stand_valid (s : Fan3D) : mesh_valid (generate_stand s).
Proof.
  unfold mesh_valid. destruct (has_stand s) eqn:Hs.
  - rewrite (proj1 (generate_stand_sizes s Hs)).
    unfold generate_stand. rewrite Hs. cbn [negb snd].
    apply grid_faces_valid. rewrite length_stand_theta. simpl. lia.
  - unfold generate_stand. rewrite Hs. constructor.
Qed.

Lemma generate_safety_cage_valid (s : Fan3D) :
  mesh_valid (generate_safety_cage s).
Proof.
  unfold mesh_valid.
  rewrite (proj1 (generate_safety_cage_sizes s)).
  unfold generate_safety_cage. cbn [snd].
  apply List.Forall_forall. intros face Hin.
  apply List.in_flat_map in Hin. destruct Hin as (i & Hi & Hin).
  apply List.in_map_iff in Hin. destruct Hin as (j & <- & Hj).
  apply List.in_seq in Hi, Hj.
  unfold cage_quad, valid_index, n_spokes, n_rings in *.
  repeat constructor; lia.
Qed.

(** C7: in the mesh of each of the four generators, for every
    configuration, every index of every face is at least 0 and below the
    number of vertices of that mesh. *)
Theorem generators_indices_valid (s : Fan3D) (angle_offset : R) :
  mesh_valid (generate_blade s angle_offset) /\
  mesh_valid (generate_motor_housing s) /\
  mesh_valid (generate_stand s) /\
  mesh_valid (generate_safety_cage s).
Proof.
  split; [apply generate_blade_valid |].
  split; [apply generate_motor_housing_valid |].
  split; [apply generate_stand_valid | apply generate_safety_cage_valid].
Qed.

(** ** Motor housing *)

(** C9 as stated gives the housing 33 angular samples and 198 vertices;
    [np.linspace(0, 2 * np.pi, 32)] has 32 samples and the mesh 192
    vertices. *)
Lemma motor_housing_not_198 :
  ~ (length motor_theta = 33%nat /\
     length (fst (generate_motor_housing (init "ceiling"))) = 198%nat).
Proof.
  rewrite length_motor_theta. intros [H _]. discriminate H.
Qed.

(** C9 (amended): the housing is a bulged cylinder of 32 angular samples
    (the angles [j * 2 pi / 31], the last one closing the circle) at each
    of 6 height levels, 192 vertices in level-major order; the level [i]
    lies at [z = -0.2 + 0.08 i], from -0.2 to +0.2 in 5 steps, with radius
    [motor_radius * (1 + 0.1 sin (i pi / 5))]; its 155 faces are the quads
    joining sample [j] and [j + 1] of level [i] to the same samples of
    level [i + 1]. *)
Theorem motor_housing_shape (s : Fan3D) :
  let vertices := fst (generate_motor_housing s) in
  let faces := snd (generate_motor_housing s) in
  (length motor_theta = 32%nat /\ length vertices = 192%nat /\
   length faces = 155%nat) /\
  (motor_level_z 0 = -0.2 /\ motor_level_z 5 = 0.2) /\
  (forall i j : nat, (i < 6)%nat -> (j < 32)%nat ->
     nth_error vertices (i * 32 + j) =
     Some (let r := motor_radius s * (1 + 0.1 * sin (INR i * PI / 5)) in
           let t := INR j * (2 * PI / 31) in
           mkVec3 (r * cos t) (r * sin t) (-0.2 + INR i * 0.08))) /\
  (forall i j : nat, (i < 5)%nat -> (j < 31)%nat ->
     nth_error faces (i * 31 + j) =
     Some (let idx := Z.of_nat (i * 32 + j) in
           [idx; idx + 1; idx + 32 + 1; idx + 32]%Z)).
Proof.
  intros vertices faces.
  destruct (generate_motor_housing_sizes s) as [Hv Hf].
  split; [split; [apply length_motor_theta | split; assumption] |].
  split; [unfold motor_level_z; simpl INR; split; lra |].
  split.
  - intros i j Hi Hj. subst vertices.
    unfold generate_motor_housing. cbn [fst].
    rewrite (nth_error_flat_map_const _ 32 _
               (fun x => eq_trans (length_ring _ _ _) length_motor_theta)
               i j i (nth_error_range 6 i Hi) Hj).
    unfold ring, motor_theta. rewrite nth_error_map.
    rewrite (nth_error_np_linspace 0 (2 * PI) 32 j Hj).
    cbn [option_map]. cbv zeta.
    unfold motor_level_r, motor_level_z, height_segments.
    replace (0 + INR j * ((2 * PI - 0) / INR (32 - 1)))
      with (INR j * (2 * PI / 31)) by (simpl INR; lra).
    replace (INR 5) with 5 by (simpl; lra).
    reflexivity.
  - intros i j Hi Hj. subst faces.
    unfold generate_motor_housing. cbn [snd].
    rewrite length_motor_theta.
    exact (nth_error_grid_faces 5 32 i j Hi Hj).
Qed.

Lemma motor_housing_shape_witness :
  ((2 < 6)%nat /\ (31 < 32)%nat) /\
  nth_error (fst (generate_motor_housing (init "industrial"))) (2 * 32 + 31) =
  Some (let r := motor_radius (init "industrial") *
                 (1 + 0.1 * sin (INR 2 * PI / 5)) in
        let t := INR 31 * (2 * PI / 31) in
        mkVec3 (r * cos t) (r * sin t) (-0.2 + INR 2 * 0.08)).
Proof.
  assert (Hi : (2 < 6)%nat) by lia.
  assert (Hj : (31 < 32)%nat) by lia.
  split; [auto |].
  destruct (motor_housing_shape (init "industrial")) as (_ & _ & Hvert & _).
  exact (Hvert 2%nat 31%nat Hi Hj).
Defined.

(** ** Zero-extent configurations *)

(** C6 as stated makes these two meshes empty; they have their usual 80
    and 192 vertices. *)
Lemma zero_extent_not_empty :
  generate_blade zero_extent_fan 0 <> ([], []) /\
  generate_motor_housing zero_extent_fan <> ([], []).
Proof.
  split; intros H.
  - pose proof (proj1 (generate_blade_sizes zero_extent_fan 0)) as Hv.
    rewrite H in Hv. discriminate Hv.
  - pose proof (proj1 (generate_motor_housing_sizes zero_extent_fan)) as Hv.
    rewrite H in Hv. discriminate Hv.
Qed.

(** C6 (amended): the generators are total functions and the size of
    their meshes does not depend on the configured dimensions or count:
    the blade has 80 vertices and 20 faces, the motor housing 192 and 155,
    the safety cage 256 and 105, the stand 352 and 285.  The stand
    generator alone returns an empty mesh, when [has_stand] is false; and
    with [blade_count = 0] the blade loop of [render] generates no blade
    at all. *)
Theorem generators_fixed_size (s : Fan3D) (angle_offset : R) :
  (length (fst (generate_blade s angle_offset)) = 80%nat /\
   length (snd (generate_blade s angle_offset)) = 20%nat) /\
  (length (fst (generate_motor_housing s)) = 192%nat /\
   length (snd (generate_motor_housing s)) = 155%nat) /\
  (length (fst (generate_safety_cage s)) = 256%nat /\
   length (snd (generate_safety_cage s)) = 105%nat) /\
  (has_stand s = true ->
   length (fst (generate_stand s)) = 352%nat /\
   length (snd (generate_stand s)) = 285%nat) /\
  (has_stand s = false -> generate_stand s = ([], [])) /\
  (blade_count s = 0%Z -> render_blades s = []).
Proof.
  split; [apply generate_blade_sizes |].
  split; [apply generate_motor_housing_sizes |].
  split; [apply generate_safety_cage_sizes |].
  split; [apply generate_stand_sizes |].
  split.
  - intros Hs. unfold generate_stand. rewrite Hs. reflexivity.
  - intros Hb. unfold render_blades. rewrite Hb. reflexivity.
Qed.

Lemma generators_fixed_size_witness :
  (has_stand zero_extent_fan = false /\ blade_count zero_extent_fan = 0%Z) /\
  generate_stand zero_extent_fan = ([], []) /\
  render_blades zero_extent_fan = [].
Proof.
  assert (Hs : has_stand zero_extent_fan = false) by reflexivity.
  assert (Hb : blade_count zero_extent_fan = 0%Z) by reflexivity.
  split; [auto |].
  destruct (generators_fixed_size zero_extent_fan 0)
    as (_ & _ & _ & _ & Hstand & Hblades).
  split; [exact (Hstand Hs) | exact (Hblades Hb)].
Defined.

(** ** Shading *)

Lemma py_index_valid {A : Type} (l : list A) (i : Z) :
  py_valid_index (length l) i -> exists x, py_index l i = Some x.
Proof.
  unfold py_valid_index, py_index. intros Hi.
  destruct (0 <=? i)%Z eqn:Hpos.
  - apply Z.leb_le in Hpos.
    destruct (nth_error l (Z.to_nat i)) as [x|] eqn:E; [eauto |].
    apply nth_error_None in E. lia.
  - apply Z.leb_gt in Hpos.
    replace (- Z.of_nat (length l) <=? i)%Z with true
      by (symmetry; apply Z.leb_le; lia).
    destruct (nth_error l (Z.to_nat (Z.of_nat (length l) + i))) as [x|] eqn:E;
      [eauto |].
    apply nth_error_None in E. lia.
Qed.

Lemma face_intensity_range (mode : string) (normal : Vec3) :
  0 <= face_intensity mode normal <= 1.
Proof. unfold face_intensity. apply np_clip_range. lra. Qed.

Lemma shade_face_skips (mode : string) (vertices : list Vec3) (color : RGBA)
    (acc : list RGBA) (face : Face) :
  shaded face = false -> shade_face mode vertices color acc face = Some acc.
Proof.
  unfold shaded, shade_face. intros H.
  apply Nat.leb_gt in H.
  replace (length face <? 3)%nat with true
    by (symmetry; apply Nat.ltb_lt; exact H).
  reflexivity.
Qed.

Lemma shade_face_appends (s : Fan3D) (vertices : list Vec3) (color : RGBA)
    (acc : list RGBA) (face : Face) :
  shaded face = true -> readable vertices face ->
  exists c, shade_of s vertices color face c /\
    shade_face (lighting_mode s) vertices color acc face = Some (acc ++ [c]).
Proof.
  intros Hkeep Hread. specialize (Hread Hkeep).
  unfold shaded in Hkeep. apply Nat.leb_le in Hkeep.
  destruct face as [|i0 [|i1 [|i2 rest]]]; simpl in Hkeep; try lia.
  simpl firstn in Hread.
  inversion Hread as [|? ? H0 Hread1]; subst.
  inversion Hread1 as [|? ? H1 Hread2]; subst.
  inversion Hread2 as [|? ? H2 _]; subst.
  destruct (py_index_valid vertices i0 H0) as [v0 E0].
  destruct (py_index_valid vertices i1 H1) as [v1 E1].
  destruct (py_index_valid vertices i2 H2) as [v2 E2].
  exists (tint color (face_intensity (lighting_mode s) (face_normal v0 v1 v2))).
  split.
  - exists i0, i1, i2, v0, v1, v2. auto.
  - unfold shade_face.
    replace (length (i0 :: i1 :: i2 :: rest) <? 3)%nat with false
      by (symmetry; apply Nat.ltb_ge; simpl; lia).
    change (py_index (i0 :: i1 :: i2 :: rest) 0) with (Some i0).
    change (py_index (i0 :: i1 :: i2 :: rest) 1) with (Some i1).
    change (py_index (i0 :: i1 :: i2 :: rest) 2) with (Some i2).
    simpl. rewrite E0. simpl. rewrite E1. simpl. rewrite E2. reflexivity.
Qed.

Lemma shade_loop_from (s : Fan3D) (vertices : list Vec3) (color : RGBA)
    (faces : list Face) :
  Forall (readable vertices) faces ->
  forall acc, exists out,
    fold_left (fun acc face => face_colors ← acc;
                 shade_face (lighting_mode s) vertices color face_colors face)
              faces (Some acc) = Some (acc ++ out) /\
    Forall2 (shade_of s vertices color) (List.filter shaded faces) out.
Proof.
  induction 1 as [|face faces Hface Hfaces IH]; intros acc.
  - exists []. simpl. rewrite app_nil_r. split; [reflexivity | constructor].
  - simpl fold_left. simpl List.filter.
    destruct (shaded face) eqn:Hkeep.
    + destruct (shade_face_appends s vertices color acc face Hkeep Hface)
        as (c & Hc & ->).
      destruct (IH (acc ++ [c])) as (out & -> & Hout).
      exists (c :: out). rewrite <- app_assoc. split; [reflexivity |].
      constructor; assumption.
    + rewrite (shade_face_skips _ vertices color acc face Hkeep).
      apply IH.
Qed.

Lemma no_vertices_nothing_shaded (faces : list Face) :
  Forall (readable []) faces -> List.filter shaded faces = [].
Proof.
  induction 1 as [|face faces Hface Hfaces IH]; simpl.
  - reflexivity.
  - destruct (shaded face) eqn:Hkeep; [exfalso | exact IH].
    specialize (Hface Hkeep).
    unfold shaded in Hkeep. apply Nat.leb_le in Hkeep.
    destruct face as [|i0 rest]; simpl in Hkeep; [lia |].
    simpl in Hface. inversion Hface as [|? ? H0 _]; subst.
    unfold py_valid_index in H0. simpl in H0. lia.
Qed.

Lemma shade_of_dimmed (s : Fan3D) (vertices : list Vec3) (color : RGBA)
    (face : Face) (c : RGBA) :
  shade_of s vertices color face c -> dimmed color c.
Proof.
  intros (i0 & i1 & i2 & v0 & v1 & v2 & _ & _ & _ & _ & ->).
  exists (face_intensity (lighting_mode s) (face_normal v0 v1 v2)).
  split; [apply face_intensity_range |].
  repeat split; reflexivity.
Qed.

(** The whole call on readable faces: the early return and the loop. *)
Lemma apply_lighting_readable (s : Fan3D) (vertices : list Vec3)
    (faces : list Face) (color : RGBA) :
  Forall (readable vertices) faces ->
  exists out,
    apply_lighting s vertices faces color = Some out /\
    length out = length (List.filter shaded faces) /\
    Forall2 (shade_of s vertices color) (List.filter shaded faces) out /\
    Forall (dimmed color) out.
Proof.
  intros Hread.
  assert (Hfinish : forall out,
            Forall2 (shade_of s vertices color) (List.filter shaded faces) out ->
            length out = length (List.filter shaded faces) /\
            Forall2 (shade_of s vertices color) (List.filter shaded faces) out /\
            Forall (dimmed color) out).
  { intros out H2. split; [symmetry; apply (List.Forall2_length H2) |].
    split; [exact H2 |].
    clear Hread. induction H2 as [|face c fs cs Hc _ IH]; constructor.
    - apply (shade_of_dimmed s vertices color face c Hc).
    - exact IH. }
  unfold apply_lighting.
  destruct vertices as [|v vertices].
  - exists []. split; [reflexivity |]. apply Hfinish.
    rewrite (no_vertices_nothing_shaded faces Hread). constructor.
  - destruct faces as [|face faces].
    + exists []. split; [reflexivity |]. apply Hfinish. constructor.
    + cbn [length Nat.eqb orb]. unfold shade_loop.
      destruct (shade_loop_from s (v :: vertices) color (face :: faces) Hread [])
        as (out & Hrun & Hout).
      exists out. split; [exact Hrun |]. apply Hfinish, Hout.
Qed.

(** C4: on a vertex array and a face list in which each face of three or
    more indices starts with three indices of the vertex array,
    [apply_lighting] returns, for every lighting mode and every base
    colour, one RGBA entry per face of three or more indices, in face
    order, and none for a shorter face.  Each entry is the base colour
    with its RGB channels multiplied by the intensity of that face, a
    number in [[0, 1]], and with the base alpha. *)
Theorem apply_lighting_shape (s : Fan3D) (vertices : list Vec3)
    (faces : list Face) (color : RGBA) :
  Forall (readable vertices) faces ->
  exists out,
    apply_lighting s vertices faces color = Some out /\
    length out = length (List.filter shaded faces) /\
    Forall2 (shade_of s vertices color) (List.filter shaded faces) out /\
    Forall (dimmed color) out.
Proof. apply apply_lighting_readable. Qed.

Lemma apply_lighting_shape_witness :
  Forall (readable sample_vertices) sample_faces /\
  exists out,
    apply_lighting (init "ceiling") sample_vertices sample_faces
      (blade_color (init "ceiling")) = Some out /\
    length out = 2%nat.
Proof.
  assert (Hread : Forall (readable sample_vertices) sample_faces).
  { unfold readable, py_valid_index, sample_faces.
    repeat constructor; simpl; try lia; discriminate. }
  split; [exact Hread |].
  destruct (apply_lighting_shape (init "ceiling") sample_vertices sample_faces
              (blade_color (init "ceiling")) Hread) as (out & Hout & Hlen & _).
  exists out. split; [exact Hout | exact Hlen].
Defined.

(** A face that points past the vertex array makes the call raise. *)
Example apply_lighting_index_error :
  apply_lighting (init "ceiling") sample_vertices [[0; 1; 3]%Z]
    (blade_color (init "ceiling")) = None.
Proof. reflexivity. Qed.

(** A mesh with valid indices can be shaded. *)
Lemma mesh_valid_readable (vertices : list Vec3) (faces : list Face) :
  mesh_valid (vertices, faces) -> Forall (readable vertices) faces.
Proof.
  unfold mesh_valid. cbn [fst snd]. apply List.Forall_impl.
  intros face Hface _. apply Forall_take.
  revert Hface. apply List.Forall_impl.
  unfold valid_index, py_valid_index. intros i. lia.
Qed.

Lemma filter_all {A : Type} (p : A -> bool) (l : list A) :
  Forall (fun x => p x = true) l -> List.filter p l = l.
Proof.
  induction 1 as [|x l Hx _ IH]; simpl; [reflexivity |].
  rewrite Hx, IH. reflexivity.
Qed.

(** The motor housing, as [render] shades it: one colour per quad. *)
Corollary motor_housing_shaded (s : Fan3D) :
  exists out,
    apply_lighting s (fst (generate_motor_housing s))
      (snd (generate_motor_housing s)) (motor_color s) = Some out /\
    length out = 155%nat.
Proof.
  pose proof (generate_motor_housing_valid s) as Hvalid.
  destruct (generate_motor_housing s) as [vertices faces] eqn:Hm.
  destruct (apply_lighting_readable s vertices faces (motor_color s)
              (mesh_valid_readable vertices faces Hvalid))
    as (out & Hout & Hlen & _).
  exists out. split; [exact Hout |].
  rewrite Hlen, filter_all.
  - change faces with (snd (vertices, faces)). rewrite <- Hm.
    apply generate_motor_housing_sizes.
  - assert (Hf : faces = grid_faces height_segments (length motor_theta)).
    { unfold generate_motor_housing in Hm. injection Hm as _ <-. reflexivity. }
    rewrite Hf. apply List.Forall_forall. intros face Hin.
    unfold grid_faces in Hin. apply List.in_flat_map in Hin.
    destruct Hin as (i & _ & Hin).
    apply List.in_map_iff in Hin. destruct Hin as (j & <- & _).
    reflexivity.
Qed.

(** * Further properties *)

(** ** The wrap of the angle *)





(** ** Closed form of the oscillation *)

Lemma run_app (s : Fan3D) (l1 l2 : list R) :
  run s (l1 ++ l2) = run (run s l1) l2.
Proof. unfold run. apply fold_left_app. Qed.

Lemma sweep_linear (dts : list R) :
  forall s, sweeping s ->
  IZR (oscillate_direction s) * oscillate_angle s + 0.5 * INR (length dts)
    < oscillate_range s / 2 ->
  oscillate_angle (run s dts) =
    oscillate_angle s + IZR (oscillate_direction s) * 0.5 * INR (length dts) /\
  oscillate_direction (run s dts) = oscillate_direction s.
Proof.
  induction dts as [|dt dts IH]; intros s Hs Hroom.
  - simpl. split; [lra | reflexivity].
  - cbn [length] in *. rewrite S_INR in *.
    pose proof (pos_INR (length dts)) as Hn.
    destruct (sweep_step s dt Hs) as (Hs' & Hin & _).
    destruct Hs as (Hosc & Hang & Hdir).
    assert (Hinside : Rabs (swept s) < oscillate_range s / 2).
    { unfold swept. destruct Hdir as [Hd | Hd]; rewrite Hd in *;
        split_minmax; lra. }
    destruct (Hin Hinside) as [Ea Ed]. unfold swept in Ea.
    rewrite run_cons.
    destruct (IH (update_physics s dt) Hs') as [Ha' Hd'].
    + rewrite Ea, Ed, update_physics_oscillate_range.
      destruct Hdir as [Hd | Hd]; rewrite Hd in *; lra.
    + rewrite Ha', Hd', Ea, Ed. split; [lra | reflexivity].
Qed.

Lemma sweep_to_boundary (dts : list R) (dt : R) :
  forall s, sweeping s ->
  IZR (oscillate_direction s) * oscillate_angle s + 0.5 * INR (length dts)
    < oscillate_range s / 2
    <= IZR (oscillate_direction s) * oscillate_angle s
       + 0.5 * (INR (length dts) + 1) ->
  oscillate_angle (run s (dts ++ [dt])) =
    IZR (oscillate_direction s) * (oscillate_range s / 2) /\
  oscillate_direction (run s (dts ++ [dt])) = (- oscillate_direction s)%Z.
Proof.
  intros s Hs [Hroom Hhit].
  destruct (sweep_linear dts s Hs Hroom) as [Ea Ed].
  destruct (sweep_run dts s Hs) as [Hs' Hrange].
  destruct (sweep_step (run s dts) dt Hs') as (_ & _ & Hout).
  rewrite run_snoc.
  destruct Hs as (_ & _ & Hdir).
  assert (Houtside : Rabs (swept (run s dts)) >= oscillate_range (run s dts) / 2).
  { unfold swept. rewrite Ea, Ed, Hrange.
    destruct Hdir as [Hd | Hd]; rewrite Hd in *; split_minmax; lra. }
  destruct (Hout Houtside) as [Ea' Ed'].
  rewrite Ea', Ed', Ed, Hrange. split; reflexivity.
Qed.

(** X4: The sweep in closed form.  While the angle has room for [n] more half
    degrees in its direction it moves linearly and keeps the direction;
    the call on which the half range is reached leaves it exactly on that
    boundary with the direction reversed. *)
Theorem oscillation_closed_form (s : Fan3D) (dts : list R) (dt : R) :
  sweeping s ->
  let d := IZR (oscillate_direction s) in
  let h := oscillate_range s / 2 in
  let n := INR (length dts) in
  (d * oscillate_angle s + 0.5 * n < h ->
   oscillate_angle (run s dts) = oscillate_angle s + d * 0.5 * n /\
   oscillate_direction (run s dts) = oscillate_direction s) /\
  (d * oscillate_angle s + 0.5 * n < h <= d * oscillate_angle s + 0.5 * (n + 1) ->
   oscillate_angle (run s (dts ++ [dt])) = d * h /\
   oscillate_direction (run s (dts ++ [dt])) = (- oscillate_direction s)%Z).
Proof.
  intros Hs d h n. split.
  - apply sweep_linear, Hs.
  - apply sweep_to_boundary, Hs.
Qed.

Lemma sweeping_init_on (t : string) : sweeping (set_oscillate true (init t)).
Proof.
  split; [reflexivity |]. split; [simpl; lra | left; reflexivity].
Qed.

Lemma oscillation_closed_form_witness :
  let s := set_oscillate true (init "table") in
  sweeping s /\
  oscillate_angle (run s (repeat 0.016 59)) = 29.5 /\
  oscillate_angle (run s (repeat 0.016 59 ++ [0.016])) = 30 /\
  oscillate_direction (run s (repeat 0.016 59 ++ [0.016])) = (-1)%Z.
Proof.
  intros s.
  pose proof (sweeping_init_on "table") as Hs. fold s in Hs.
  split; [exact Hs |].
  destruct (oscillation_closed_form s (repeat 0.016 59) 0.016 Hs) as [Hlin Hturn].
  cbv zeta in Hlin, Hturn. rewrite repeat_length in Hlin, Hturn.
  change (oscillate_angle s) with 0 in Hlin, Hturn.
  change (oscillate_direction s) with 1%Z in Hlin, Hturn.
  change (oscillate_range s) with 60 in Hlin, Hturn.
  replace (INR 59) with 59 in Hlin, Hturn by (simpl; lra).
  destruct Hlin as [Ea _]; [lra |].
  destruct Hturn as [Eb Ed]; [lra |].
  split; [rewrite Ea; lra |]. split; [rewrite Eb; lra | exact Ed].
Defined.

(** X5: When the range is a whole number [m] of degrees and the angle is on
    the half-degree grid of the sweep, the oscillation repeats every [4 m]
    calls: angle and direction are what they were. *)
Theorem oscillation_period (s : Fan3D) (m j : nat) (dts : list R) :
  sweeping s ->
  oscillate_range s = INR m ->
  (j < 2 * m)%nat ->
  IZR (oscillate_direction s) * oscillate_angle s
    = - (oscillate_range s / 2) + 0.5 * INR j ->
  length dts = (4 * m)%nat ->
  oscillate_angle (run s dts) = oscillate_angle s /\
  oscillate_direction (run s dts) = oscillate_direction s.
Proof.
  intros Hs Hm Hj Hgrid Hlen.
  (* up to the boundary ahead: 2m - j calls *)
  assert (H2m : INR (2 * m) = 2 * INR m) by (rewrite mult_INR; simpl; lra).
  set (k1 := (2 * m - j)%nat).
  assert (Hk1 : INR k1 = 2 * INR m - INR j).
  { unfold k1. rewrite minus_INR by lia. rewrite H2m. reflexivity. }
  set (l1 := firstn k1 dts). set (r1 := skipn k1 dts).
  set (l2 := firstn (2 * m) r1). set (l3 := skipn (2 * m) r1).
  assert (Hdts : dts = l1 ++ l2 ++ l3).
  { unfold l1, l2, l3, r1. rewrite !firstn_skipn. reflexivity. }
  assert (Hl1 : length l1 = k1) by (unfold l1; rewrite length_firstn; lia).
  assert (Hr1 : length r1 = (2 * m + j)%nat)
    by (unfold r1; rewrite length_skipn; lia).
  assert (Hl2 : length l2 = (2 * m)%nat) by (unfold l2; rewrite length_firstn; lia).
  assert (Hl3 : length l3 = j) by (unfold l3; rewrite length_skipn; lia).
  pose proof Hs as (Hosc & Hang & Hdir).
  (* phase 1 *)
  destruct (exists_last (l := l1)) as (p1 & e1 & Hp1).
  { intros E. rewrite E in Hl1. simpl in Hl1. lia. }
  assert (Hlp1 : INR (length p1) + 1 = INR k1).
  { rewrite <- Hl1, Hp1, length_app. cbn [length]. rewrite plus_INR. simpl. lra. }
  destruct (sweep_to_boundary p1 e1 s Hs) as [Ea1 Ed1]; [rewrite Hm in *; lra |].
  rewrite <- Hp1 in Ea1, Ed1.
  destruct (sweep_run l1 s Hs) as [Hs1 Hrange1].
  (* phase 2 *)
  destruct (exists_last (l := l2)) as (p2 & e2 & Hp2).
  { intros E. rewrite E in Hl2. simpl in Hl2. lia. }
  assert (Hlp2 : INR (length p2) + 1 = 2 * INR m).
  { rewrite <- H2m, <- Hl2, Hp2, length_app. cbn [length]. rewrite plus_INR.
    simpl. lra. }
  destruct (sweep_to_boundary p2 e2 (run s l1) Hs1) as [Ea2 Ed2].
  { rewrite Ea1, Ed1, Hrange1, opp_IZR, Hm in *.
    destruct Hdir as [Hd | Hd]; rewrite Hd in *; lra. }
  rewrite <- Hp2, <- run_app in Ea2, Ed2.
  destruct (sweep_run l2 (run s l1) Hs1) as [Hs2 Hrange2].
  rewrite <- run_app in Hs2, Hrange2.
  (* phase 3 *)
  destruct (sweep_linear l3 (run s (l1 ++ l2)) Hs2) as [Ea3 Ed3].
  { rewrite Ea2, Ed2, Ed1, Hrange2, Hrange1, Hl3, Z.opp_involutive, opp_IZR.
    assert (HJ : INR j < 2 * INR m).
    { rewrite <- H2m. apply lt_INR. exact Hj. }
    rewrite Hm in *.
    destruct Hdir as [Hd | Hd]; rewrite Hd in *; lra. }
  rewrite <- run_app, <- app_assoc, <- Hdts in Ea3, Ed3.
  rewrite Ea3, Ed3, Ea2, Ed2, Ed1, Hrange1, Hl3, Z.opp_involutive, opp_IZR.
  split; [| reflexivity].
  rewrite Hm in *.
  destruct Hdir as [Hd | Hd]; rewrite Hd in *; lra.
Qed.

Lemma oscillation_period_witness :
  let s := set_oscillate true (init "table") in
  (sweeping s /\ oscillate_range s = INR 60 /\ (60 < 2 * 60)%nat) /\
  oscillate_angle (run s (repeat 0.016 240)) = 0 /\
  oscillate_direction (run s (repeat 0.016 240)) = 1%Z.
Proof.
  intros s.
  pose proof (sweeping_init_on "table") as Hs. fold s in Hs.
  assert (Hm : oscillate_range s = INR 60) by (simpl; lra).
  assert (Hj : (60 < 2 * 60)%nat) by lia.
  split; [auto |].
  apply (oscillation_period s 60 60 (repeat 0.016 240) Hs Hm Hj).
  - simpl. lra.
  - reflexivity.
Defined.

(** ** The configuration table *)

Lemma configs_cases (name : string) :
  let c := default configs_ceiling (configs !! name) in
  c = ceiling_config \/ c = table_config \/ c = tower_config \/
  c = industrial_config \/ c = desk_config.
Proof.
  cbv zeta. unfold configs. rewrite !lookup_insert, lookup_empty.
  repeat case_decide; simpl; auto 6.
Qed.

(** X6: Whatever [fan_type] is, [configure_fan] leaves the fan with at least
    three blades, positive blade and motor dimensions and a tilt between 0
    and 20 degrees, and touches nothing but the six configuration
    attributes; configuring twice is configuring once. *)
Theorem configure_fan_sane (s : Fan3D) :
  let s' := configure_fan s in
  ((3 <= blade_count s')%Z /\ 0 < blade_length s' /\ 0 < blade_width s' /\
   0 < motor_radius s' /\ 0 <= tilt_angle s' <= 20) /\
  (fan_type s' = fan_type s /\ angle s' = angle s /\
   current_speed s' = current_speed s /\ target_speed s' = target_speed s /\
   is_on s' = is_on s /\ oscillate s' = oscillate s /\
   oscillate_angle s' = oscillate_angle s /\
   oscillate_direction s' = oscillate_direction s /\
   lighting_mode s' = lighting_mode s) /\
  configure_fan s' = s'.
Proof.
  cbv zeta. split; [| split; [repeat split |]].
  - unfold configure_fan.
    destruct (configs_cases (fan_type s)) as [E | [E | [E | [E | E]]]];
      cbv zeta in E; rewrite E; simpl; repeat split; (lia || lra).
  - reflexivity.
Qed.

(** ** The key handler *)

Lemma configured_configure_fan (s : Fan3D) : configured (configure_fan s).
Proof. unfold configured, configure_fan. repeat split; reflexivity. Qed.

Ltac healthy_parts H :=
  destruct H as ((Hrates & Hmax & Hrange) & (Hts & Hcs) & Hang & Hosc
                 & Hmode & Hcfg).

Lemma list_index_modes (mode : string) :
  In mode modes ->
  exists i, list_index mode modes = Some i /\ (i < 3)%nat /\
            nth i modes ""%string = mode.
Proof.
  unfold modes. simpl.
  intros [<- | [<- | [<- | []]]];
    [exists 0%nat | exists 1%nat | exists 2%nat]; repeat split; lia.
Qed.

Lemma nth_modes_in (i : nat) : In (nth (i mod 3) modes ""%string) modes.
Proof.
  assert (H : (i mod 3 < 3)%nat) by (apply Nat.mod_upper_bound; lia).
  destruct (i mod 3)%nat as [|[|[|k]]]; simpl; auto; lia.
Qed.

Lemma on_key_healthy (key : string) (s : Fan3D) :
  healthy s -> exists s', on_key key s = Some s' /\ healthy s'.
Proof.
  intros H. healthy_parts H. unfold on_key.
  destruct (String.eqb key "up");
    [| destruct (String.eqb key "down");
       [| destruct (String.eqb key " ");
          [| destruct (String.eqb key "o");
             [| destruct (String.eqb key "l")]]]].
  - eexists. split; [reflexivity |].
    split; [auto |]. split; [| auto].
    cbn [target_speed current_speed max_speed set_target_speed].
    split; [split_minmax; lra | exact Hcs].
  - eexists. split; [reflexivity |].
    split; [auto |]. split; [| auto].
    cbn [target_speed current_speed max_speed set_target_speed].
    split; [split_minmax; lra | exact Hcs].
  - eexists. split; [reflexivity |].
    split; [auto |]. split; auto.
  - eexists. split; [reflexivity |].
    destruct (is_on s); cbn [negb is_on set_is_on].
    + split; [auto |]. split; [| auto].
      cbn [target_speed current_speed max_speed set_target_speed set_is_on].
      split; [lra | exact Hcs].
    + split; [auto |]. split; [| auto].
      cbn [target_speed current_speed max_speed set_target_speed set_is_on].
      split; [lra | exact Hcs].
  - destruct (list_index_modes _ Hmode) as (i & -> & _ & _).
    eexists. split; [reflexivity |].
    split; [auto |]. split; [auto |]. split; [auto |]. split; [auto |].
    split; [| exact Hcfg].
    cbn [lighting_mode set_lighting_mode]. apply nth_modes_in.
  - destruct (list_index key _) as [k|].
    + eexists. split; [reflexivity |].
      split; [auto |]. split; [auto |]. split; [auto |]. split; [auto |].
      split; [exact Hmode | apply configured_configure_fan].
    + eexists. split; [reflexivity |].
      split; [auto |]. split; [auto |]. split; [auto |]. split; [auto |].
      split; [exact Hmode | exact Hcfg].
Qed.

Lemma healthy_init (t : string) : healthy (init t).
Proof.
  split; [split; [split; reflexivity | split; simpl; lra] |].
  split; [simpl; lra |].
  split; [simpl; pose proof two_PI_pos; lra |].
  split; [split; [simpl; lra | left; reflexivity] |].
  split; [simpl; auto | apply configured_configure_fan].
Qed.

(** ** [render] never raises *)

Lemma face_vertices_total (vertices : list Vec3) (faces : list Face) :
  Forall (Forall (py_valid_index (length vertices))) faces ->
  exists fv, face_vertices vertices faces = Some fv /\
             length fv = length faces.
Proof.
  intros Hvalid. unfold face_vertices.
  destruct (mapM_is_Some_2 (fun face : Face => mapM (py_index vertices) face) faces)
    as [fv Hfv].
  - revert Hvalid. apply List.Forall_impl. intros face Hface.
    apply mapM_is_Some_2. revert Hface. apply List.Forall_impl.
    intros i Hi. destruct (py_index_valid vertices i Hi) as [v Hv].
    exists v. exact Hv.
  - exists fv. split; [exact Hfv |].
    apply mapM_Some_1 in Hfv. symmetry. apply (List.Forall2_length Hfv).
Qed.

Lemma valid_py_valid (n : nat) (faces : list Face) :
  Forall (Forall (valid_index n)) faces ->
  Forall (Forall (py_valid_index n)) faces.
Proof.
  apply List.Forall_impl. intros face. apply List.Forall_impl.
  unfold valid_index, py_valid_index. intros i. lia.
Qed.

Lemma all_quads_shaded (faces : list Face) :
  all_quads faces -> List.filter shaded faces = faces.
Proof.
  intros H. apply filter_all. revert H. apply List.Forall_impl.
  intros face Hface. unfold shaded. rewrite Hface. reflexivity.
Qed.

Lemma shaded_part_total (s : Fan3D) (transform : list Vec3 -> list Vec3)
    (m : Mesh) (color : RGBA) :
  mesh_valid m -> all_quads (snd m) ->
  (forall vs, length (transform vs) = length vs) ->
  exists cols,
    shaded_part s transform m color = Some cols /\
    Forall aligned cols /\
    length cols = (if (0 <? length (fst m))%nat then 1 else 0)%nat.
Proof.
  intros Hvalid Hquads Hlen. unfold shaded_part.
  destruct (0 <? length (fst m))%nat; [| exists []; repeat split; constructor].
  assert (Hvalid' : mesh_valid (transform (fst m), snd m)).
  { unfold mesh_valid in *. cbn [fst snd]. rewrite Hlen. exact Hvalid. }
  destruct (face_vertices_total (transform (fst m)) (snd m)) as (fv & -> & Hfv).
  { apply valid_py_valid. exact Hvalid'. }
  destruct (apply_lighting_readable s (transform (fst m)) (snd m) color
              (mesh_valid_readable _ _ Hvalid')) as (fc & -> & Hfc & _).
  rewrite (all_quads_shaded _ Hquads) in Hfc.
  eexists. split; [reflexivity |]. split; [| reflexivity].
  constructor; [| constructor]. unfold aligned. cbn [facecolors polys]. lia.
Qed.

Lemma grid_faces_quads (levels n_theta : nat) :
  all_quads (grid_faces levels n_theta).
Proof.
  apply List.Forall_forall. intros face Hin.
  unfold grid_faces in Hin. apply List.in_flat_map in Hin.
  destruct Hin as (i & _ & Hin).
  apply List.in_map_iff in Hin. destruct Hin as (j & <- & _). reflexivity.
Qed.

Lemma blade_loop_quads (profile : list (Vec3 * Vec3)) (l : list nat) :
  forall m, all_quads (snd m) ->
  all_quads (snd (fold_left (blade_segment profile) l m)).
Proof.
  induction l as [|i l IH]; intros m Hm; simpl; [exact Hm |].
  apply IH. unfold blade_segment.
  destruct (nth i profile _) as [a b], (nth (i + 1) profile _) as [c d].
  cbn [snd]. apply Forall_app. split; [exact Hm |].
  constructor; [reflexivity | constructor].
Qed.

Lemma generate_stand_quads (s : Fan3D) : all_quads (snd (generate_stand s)).
Proof.
  unfold generate_stand. destruct (has_stand s); cbn [negb snd].
  - apply grid_faces_quads.
  - constructor.
Qed.

Lemma length_rows_mat (m : Mat3) (vertices : list Vec3) :
  length (rows_mat vertices m) = length vertices.
Proof. apply length_map. Qed.

Lemma cage_part_total (s : Fan3D) (transform : list Vec3 -> list Vec3) :
  (forall vs, length (transform vs) = length vs) ->
  exists cols,
    cage_part s transform = Some cols /\ Forall aligned cols /\
    length cols =
      (if String.eqb (fan_type s) "table" || String.eqb (fan_type s) "desk"
       then 1 else 0)%nat.
Proof.
  intros Hlen. unfold cage_part.
  destruct (String.eqb (fan_type s) "table" || String.eqb (fan_type s) "desk");
    [| exists []; repeat split; constructor].
  rewrite (proj1 (generate_safety_cage_sizes s)). cbn [Nat.ltb Nat.leb].
  destruct (face_vertices_total (transform (fst (generate_safety_cage s)))
              (snd (generate_safety_cage s))) as (fv & -> & _).
  { apply valid_py_valid. rewrite Hlen. apply generate_safety_cage_valid. }
  eexists. split; [reflexivity |]. split; [| reflexivity].
  constructor; [exact I | constructor].
Qed.

Lemma blades_total (s : Fan3D) (transform : list Vec3 -> list Vec3)
    (offset : nat -> R) (l : list nat) :
  (forall vs, length (transform vs) = length vs) ->
  exists blades,
    mapM (fun i => shaded_part s transform (generate_blade s (offset i))
                     (blade_color s)) l = Some blades /\
    Forall aligned (concat blades) /\
    length (concat blades) = length l.
Proof.
  intros Hlen. induction l as [|i l (blades & IH & Hal & Hn)].
  - exists []. repeat split; constructor.
  - destruct (shaded_part_total s transform (generate_blade s (offset i))
                (blade_color s)) as (cols & Hcols & Hcal & Hcn).
    + apply generate_blade_valid.
    + apply blade_loop_quads. constructor.
    + exact Hlen.
    + rewrite (proj1 (generate_blade_sizes s (offset i))) in Hcn.
      exists (cols :: blades). split; [| split].
      * apply mapM_Some_2. constructor; [exact Hcols |].
        apply mapM_Some_1, IH.
      * cbn [concat]. apply Forall_app. split; assumption.
      * cbn [concat length]. rewrite length_app, Hcn, Hn. reflexivity.
Qed.

Lemma render_total (s : Fan3D) :
  exists cols,
    render s = Some cols /\
    Forall aligned cols /\
    length cols =
      (Z.to_nat (blade_count s) + 1 + (if has_stand s then 1 else 0)
       + (if String.eqb (fan_type s) "table" || String.eqb (fan_type s) "desk"
          then 1 else 0))%nat.
Proof.
  unfold render.
  set (turn := fun vertices => rows_mat vertices (mat_T (rotation_matrix s))).
  assert (Hturn : forall vs, length (turn vs) = length vs)
    by (intros vs; apply length_rows_mat).
  destruct (blades_total s turn
              (fun i => INR i * 2 * PI / IZR (blade_count s))
              (range (Z.to_nat (blade_count s))) Hturn)
    as (blades & -> & Hbal & Hbn).
  destruct (shaded_part_total s turn (generate_motor_housing s) (motor_color s))
    as (motor & -> & Hmal & Hmn).
  { apply generate_motor_housing_valid. }
  { apply grid_faces_quads. }
  { exact Hturn. }
  destruct (shaded_part_total s (fun vs => vs) (generate_stand s) (stand_color s))
    as (stand & -> & Hsal & Hsn).
  { apply generate_stand_valid. }
  { apply generate_stand_quads. }
  { reflexivity. }
  destruct (cage_part_total s turn Hturn) as (cage & -> & Hcal & Hcn).
  eexists. split; [reflexivity |]. split.
  - repeat (apply Forall_app; split); assumption.
  - rewrite !length_app, Hbn, Hmn, Hsn, Hcn, length_range.
    rewrite (proj1 (generate_motor_housing_sizes s)).
    destruct (has_stand s) eqn:Hs.
    + rewrite (proj1 (generate_stand_sizes s Hs)). simpl. lia.
    + unfold generate_stand. rewrite Hs. simpl. lia.
Qed.

Lemma shaded_part_drawn (s : Fan3D) (transform : list Vec3 -> list Vec3)
    (m : Mesh) (color : RGBA) :
  mesh_valid m -> all_quads (snd m) ->
  (forall vs, length (transform vs) = length vs) ->
  (0 < length (fst m))%nat ->
  exists c, shaded_part s transform m color = Some [c] /\
            drawn s transform m color c.
Proof.
  intros Hvalid Hquads Hlen Hne. unfold shaded_part.
  replace (0 <? length (fst m))%nat with true
    by (symmetry; apply Nat.ltb_lt; exact Hne).
  assert (Hvalid' : mesh_valid (transform (fst m), snd m)).
  { unfold mesh_valid in *. cbn [fst snd]. rewrite Hlen. exact Hvalid. }
  destruct (face_vertices_total (transform (fst m)) (snd m)) as (fv & Efv & Hfv).
  { apply valid_py_valid. exact Hvalid'. }
  destruct (apply_lighting_readable s (transform (fst m)) (snd m) color
              (mesh_valid_readable _ _ Hvalid')) as (fc & Efc & Hfc & _).
  rewrite (all_quads_shaded _ Hquads) in Hfc.
  rewrite Efv, Efc.
  exists (mkCollection fv (PerFace fc)). split; [reflexivity |].
  unfold drawn. cbn [polys facecolors].
  split; [exact Efv |]. split; [exact Hfv |].
  exists fc. split; [exact Efc |]. split; [reflexivity | exact Hfc].
Qed.

Lemma blades_drawn (s : Fan3D) (transform : list Vec3 -> list Vec3)
    (offset : nat -> R) (l : list nat) :
  (forall vs, length (transform vs) = length vs) ->
  exists parts blades,
    mapM (fun i => shaded_part s transform (generate_blade s (offset i))
                     (blade_color s)) l = Some parts /\
    concat parts = blades /\
    Forall2 (fun i c => drawn s transform (generate_blade s (offset i))
                          (blade_color s) c) l blades.
Proof.
  intros Hlen. induction l as [|i l (parts & blades & IH & Hcat & Hall)].
  - exists [], []. repeat split; constructor.
  - destruct (shaded_part_drawn s transform (generate_blade s (offset i))
                (blade_color s)) as (c & Hc & Hdrawn).
    + apply generate_blade_valid.
    + apply blade_loop_quads. constructor.
    + exact Hlen.
    + rewrite (proj1 (generate_blade_sizes s (offset i))). lia.
    + exists ([c] :: parts), (c :: blades). split; [| split].
      * apply mapM_Some_2. constructor; [exact Hc |].
        apply mapM_Some_1, IH.
      * cbn [concat app]. rewrite Hcat. reflexivity.
      * constructor; assumption.
Qed.

(** X7: for every fan [render] returns without an [IndexError], and what
    it returns is, in this order: for each [i] below [blade_count] the
    shaded collection of blade [i] (offset [i * 2 pi / blade_count]) in the
    blade colour, turned; the shaded collection of the motor housing in
    the motor colour, turned; for a fan with a stand, the shaded collection
    of the stand in the stand colour, not turned; for a table or desk fan,
    the 105 polygons of the cage, turned, in the one cage colour.  Nothing
    else is returned. *)
Theorem render_collections (s : Fan3D) :
  exists blades motor stand cage,
    render s = Some (blades ++ [motor] ++ stand ++ cage) /\
    Forall2 (fun i c =>
               drawn s (turned s)
                 (generate_blade s (INR i * 2 * PI / IZR (blade_count s)))
                 (blade_color s) c)
            (range (Z.to_nat (blade_count s))) blades /\
    drawn s (turned s) (generate_motor_housing s) (motor_color s) motor /\
    (if has_stand s
     then exists c, stand = [c] /\
            drawn s (fun vertices => vertices) (generate_stand s)
              (stand_color s) c
     else stand = []) /\
    (if String.eqb (fan_type s) "table" || String.eqb (fan_type s) "desk"
     then exists c, cage = [c] /\
            face_vertices (turned s (fst (generate_safety_cage s)))
              (snd (generate_safety_cage s)) = Some (polys c) /\
            length (polys c) = 105%nat /\
            facecolors c = OneColor cage_facecolor
     else cage = []).
Proof.
  assert (Hturn : forall vs, length (turned s vs) = length vs)
    by (intros vs; apply length_rows_mat).
  destruct (blades_drawn s (turned s)
              (fun i => INR i * 2 * PI / IZR (blade_count s))
              (range (Z.to_nat (blade_count s))) Hturn)
    as (parts & blades & Eparts & Hcat & Hblades).
  destruct (shaded_part_drawn s (turned s) (generate_motor_housing s)
              (motor_color s)) as (motor & Emotor & Hmotor).
  { apply generate_motor_housing_valid. }
  { apply grid_faces_quads. }
  { exact Hturn. }
  { rewrite (proj1 (generate_motor_housing_sizes s)). lia. }
  assert (Hstand : exists stand,
            shaded_part s (fun vertices => vertices) (generate_stand s)
              (stand_color s) = Some stand /\
            (if has_stand s
             then exists c, stand = [c] /\
                    drawn s (fun vertices => vertices) (generate_stand s)
                      (stand_color s) c
             else stand = [])).
  { destruct (has_stand s) eqn:Hs.
    - destruct (shaded_part_drawn s (fun vertices => vertices)
                  (generate_stand s) (stand_color s)) as (c & Ec & Hc).
      + apply generate_stand_valid.
      + apply generate_stand_quads.
      + reflexivity.
      + rewrite (proj1 (generate_stand_sizes s Hs)). lia.
      + exists [c]. split; [exact Ec |]. exists c. auto.
    - exists []. split; [| reflexivity].
      unfold shaded_part, generate_stand. rewrite Hs. reflexivity. }
  destruct Hstand as (stand & Estand & Hstand).
  assert (Hcage : exists cage,
            cage_part s (turned s) = Some cage /\
            (if String.eqb (fan_type s) "table" || String.eqb (fan_type s) "desk"
             then exists c, cage = [c] /\
                    face_vertices (turned s (fst (generate_safety_cage s)))
                      (snd (generate_safety_cage s)) = Some (polys c) /\
                    length (polys c) = 105%nat /\
                    facecolors c = OneColor cage_facecolor
             else cage = [])).
  { unfold cage_part.
    destruct (String.eqb (fan_type s) "table" || String.eqb (fan_type s) "desk").
    - rewrite (proj1 (generate_safety_cage_sizes s)). cbn [Nat.ltb Nat.leb].
      destruct (face_vertices_total (turned s (fst (generate_safety_cage s)))
                  (snd (generate_safety_cage s))) as (fv & Efv & Hfv).
      { apply valid_py_valid. rewrite Hturn. apply generate_safety_cage_valid. }
      rewrite Efv.
      exists [mkCollection fv (OneColor cage_facecolor)].
      split; [reflexivity |].
      exists (mkCollection fv (OneColor cage_facecolor)).
      cbn [polys facecolors].
      rewrite Hfv, (proj2 (generate_safety_cage_sizes s)). auto.
    - exists []. split; reflexivity. }
  destruct Hcage as (cage & Ecage & Hcage).
  exists blades, motor, stand, cage.
  split; [| auto].
  unfold render. fold (turned s).
  change (fun vertices => rows_mat vertices (mat_T (rotation_matrix s)))
    with (turned s).
  rewrite Eparts. cbn [mbind option_bind].
  rewrite Emotor. cbn [mbind option_bind].
  rewrite Estand. cbn [mbind option_bind].
  rewrite Ecage. cbn [mbind option_bind].
  rewrite Hcat. reflexivity.
Qed.

(** ** The simulator loop *)

Lemma update_physics_config (s : Fan3D) (dt : R) :
  fan_type (update_physics s dt) = fan_type s /\
  blade_count (update_physics s dt) = blade_count s /\
  blade_length (update_physics s dt) = blade_length s /\
  blade_width (update_physics s dt) = blade_width s /\
  motor_radius (update_physics s dt) = motor_radius s /\
  has_stand (update_physics s dt) = has_stand s /\
  tilt_angle (update_physics s dt) = tilt_angle s.
Proof. osc_cases; repeat split; reflexivity. Qed.

Lemma update_physics_settings (s : Fan3D) (dt : R) :
  max_speed (update_physics s dt) = max_speed s /\
  lighting_mode (update_physics s dt) = lighting_mode s.
Proof. osc_cases; repeat split; reflexivity. Qed.

Lemma update_physics_paused (s : Fan3D) (dt : R) :
  oscillate s = false ->
  oscillate_angle (update_physics s dt) = oscillate_angle s /\
  oscillate_direction (update_physics s dt) = oscillate_direction s.
Proof.
  intros Hosc. destruct (update_physics_oscillation s dt) as [-> ->].
  unfold update_oscillation. rewrite Hosc. auto.
Qed.

Lemma update_speed_between (s : Fan3D) (hi : R) :
  stock_rates s -> 0 <= target_speed s <= hi -> 0 <= current_speed s <= hi ->
  0 <= update_speed s <= hi.
Proof.
  intros Hrates Hts Hcs. destruct (is_on s) eqn:Hon.
  - destruct (on_step_gap s Hon Hrates) as (Hlo & Hhi & _).
    destruct (Rle_dec (current_speed s) (target_speed s)) as [Hle | Hgt].
    + specialize (Hlo Hle). lra.
    + assert (Hge : target_speed s <= current_speed s) by lra.
      specialize (Hhi Hge). lra.
  - pose proof (off_step_range s Hon Hrates (proj1 Hcs)). lra.
Qed.

Lemma update_physics_healthy (s : Fan3D) (dt : R) :
  healthy s -> healthy (update_physics s dt).
Proof.
  intros H. healthy_parts H.
  destruct (update_physics_config s dt) as (Eft & Ebc & Ebl & Ebw & Emr & Ehs & Eta).
  destruct (update_physics_settings s dt) as (Ems & Elm).
  split; [| split; [| split; [| split; [| split]]]].
  - split; [apply stock_rates_step, Hrates |].
    rewrite Ems, update_physics_oscillate_range. auto.
  - rewrite update_physics_target_speed, update_physics_current_speed, Ems.
    split; [exact Hts | apply update_speed_between; assumption].
  - rewrite update_physics_angle. apply py_fmod_range, two_PI_pos.
  - destruct (oscillate s) eqn:Hflag.
    + assert (Hs : sweeping s).
      { split; [exact Hflag |]. rewrite Hrange. split; [lra | tauto]. }
      destruct (sweep_step s dt Hs) as ((_ & Hb & Hd) & _).
      rewrite update_physics_oscillate_range, Hrange in Hb.
      split; [lra | exact Hd].
    + destruct (update_physics_paused s dt Hflag) as [-> ->]. exact Hosc.
  - rewrite Elm. exact Hmode.
  - unfold configured in *. rewrite Eft, Ebc, Ebl, Ebw, Emr, Ehs, Eta.
    exact Hcfg.
Qed.

Lemma handle_healthy (sim : FanSimulator) (e : event) :
  healthy (fan sim) ->
  exists sim', handle sim e = Some sim' /\ healthy (fan sim') /\
    frame_count sim' = (frame_count sim + ticks [e])%nat.
Proof.
  intros H. destruct e as [key |]; unfold handle.
  - destruct (on_key_healthy key (fan sim) H) as (fan' & -> & H').
    eexists. split; [reflexivity |]. split; [exact H' |].
    unfold ticks. simpl. lia.
  - unfold update.
    destruct (render_total (update_physics (fan sim) default_dt))
      as (cols & -> & _).
    eexists. split; [reflexivity |].
    split; [apply update_physics_healthy, H | reflexivity].
Qed.

Lemma handle_all_healthy (events : list event) :
  forall sim, healthy (fan sim) ->
  exists sim', handle_all sim events = Some sim' /\ healthy (fan sim') /\
    frame_count sim' = (frame_count sim + ticks events)%nat.
Proof.
  induction events as [|e events IH]; intros sim H.
  - exists sim. split; [reflexivity |]. split; [exact H |].
    unfold ticks. simpl. lia.
  - destruct (handle_healthy sim e H) as (sim1 & Hstep & H1 & Hn1).
    destruct (IH sim1 H1) as (sim' & Hrest & H' & Hn').
    exists sim'. split; [| split; [exact H' |]].
    + unfold handle_all in *. cbn [fold_left].
      change (Some sim ≫= (fun sim' => handle sim' e)) with (handle sim e).
      rewrite Hstep. exact Hrest.
    + rewrite Hn', Hn1. unfold ticks. simpl.
      destruct e; simpl; lia.
Qed.

(** X8: Whatever keys are pressed and however many frames are drawn, in any
    order, from the simulator as it is constructed: no handler raises, the
    frame counter is the number of frames, and the fan keeps
    [0 <= current_speed <= max_speed], [0 <= target_speed <= max_speed],
    its angle in [[0, 2 pi)], its oscillation angle within 30 degrees with
    direction [+1] or [-1], a lighting mode of the list, and the
    configuration of its [fan_type]. *)
Theorem simulator_invariant (events : list event) :
  exists sim,
    handle_all sim_init events = Some sim /\
    healthy (fan sim) /\
    frame_count sim = ticks events.
Proof.
  destruct (handle_all_healthy events sim_init (healthy_init "ceiling"))
    as (sim & Hrun & H & Hn).
  exists sim. split; [exact Hrun |]. split; [exact H | exact Hn].
Qed.

(** ** Single keys *)

Lemma list_index_absent (x : string) (l : list string) :
  ~ In x l -> list_index x l = None.
Proof.
  induction l as [|y l IH]; intros Hout; simpl; [reflexivity |].
  destruct (String.eqb_spec y x) as [-> | Hne].
  - exfalso. apply Hout. left. reflexivity.
  - rewrite IH; [reflexivity |]. intros Hin. apply Hout. right. exact Hin.
Qed.

(** X9: The key [l] steps through realistic, flat, dramatic and back: three
    presses restore the fan, one or two never do.  On a lighting mode that
    is not in the list the handler raises. *)
Theorem lighting_key_cycle (s : Fan3D) :
  (In (lighting_mode s) modes ->
   exists s1 s2,
     on_key "l" s = Some s1 /\ on_key "l" s1 = Some s2 /\
     on_key "l" s2 = Some s /\
     lighting_mode s1 <> lighting_mode s /\
     lighting_mode s2 <> lighting_mode s) /\
  (~ In (lighting_mode s) modes -> on_key "l" s = None).
Proof.
  split.
  - destruct s. unfold modes. cbn [lighting_mode In].
    intros [<- | [<- | [<- | []]]];
      (eexists; eexists;
       split; [reflexivity |]; split; [reflexivity |];
       split; [reflexivity |]; split; discriminate).
  - intros Hout.
    change (on_key "l" s)
      with (i ← list_index (lighting_mode s) modes;
            Some (set_lighting_mode
                    (nth ((i + 1) mod length modes) modes ""%string) s)).
    rewrite (list_index_absent _ _ Hout). reflexivity.
Qed.

Lemma lighting_key_cycle_witness :
  In (lighting_mode (init "desk")) modes /\
  exists s1 s2,
    on_key "l" (init "desk") = Some s1 /\ on_key "l" s1 = Some s2 /\
    on_key "l" s2 = Some (init "desk") /\
    lighting_mode s1 = "flat"%string /\ lighting_mode s2 = "dramatic"%string.
Proof.
  assert (Hin : In (lighting_mode (init "desk")) modes) by (simpl; auto).
  split; [exact Hin |].
  destruct (proj1 (lighting_key_cycle (init "desk")) Hin)
    as (s1 & s2 & E1 & E2 & E3 & _).
  exists s1, s2. split; [exact E1 |]. split; [exact E2 |]. split; [exact E3 |].
  injection E1 as <-. injection E2 as <-. split; reflexivity.
Defined.

(** X10: The key [o] switches the fan and overwrites the target: 0 when it
    goes off, 2.0 when it comes on.  So switching off and on again brings
    back [is_on] but not a target the user had set: the target is then
    2.0 whatever it was. *)
Theorem power_key (s : Fan3D) :
  exists s1 s2,
    on_key "o" s = Some s1 /\ on_key "o" s1 = Some s2 /\
    (is_on s1 = negb (is_on s) /\
     target_speed s1 = (if is_on s then 0 else 2.0) /\
     current_speed s1 = current_speed s) /\
    (is_on s2 = is_on s /\
     target_speed s2 = (if is_on s then 2.0 else 0) /\
     current_speed s2 = current_speed s).
Proof.
  destruct s as [? ? ? ? on ? ? ? ? ? ? ? ? ? ? ? ? ? ? ? ? ? ?].
  destruct on; (eexists; eexists; split; [reflexivity |];
                split; [reflexivity |]; repeat split; reflexivity).
Qed.

(** X11: The arrow keys move the target by 0.5 and keep it inside
    [[0, max_speed]]: at the ends they change nothing, and away from the
    ends each undoes the other. *)
Theorem speed_keys (s : Fan3D) :
  0 <= target_speed s <= max_speed s ->
  exists u d,
    on_key "up" s = Some u /\ on_key "down" s = Some d /\
    (target_speed u = Rmin (max_speed s) (target_speed s + 0.5) /\
     target_speed s <= target_speed u <= max_speed s) /\
    (target_speed d = Rmax 0 (target_speed s - 0.5) /\
     0 <= target_speed d <= target_speed s) /\
    (target_speed s + 0.5 <= max_speed s -> on_key "down" u = Some s) /\
    (0.5 <= target_speed s -> on_key "up" d = Some s) /\
    (target_speed s = max_speed s -> u = s) /\
    (target_speed s = 0 -> d = s).
Proof.
  intros Hts.
  destruct s as [? ? ? ms ? ? ? ? ? ? ? ? ? ? ? ? ? ? ts ? ? ? ?].
  cbn [target_speed max_speed] in Hts.
  eexists. eexists. split; [reflexivity |]. split; [reflexivity |].
  cbn [target_speed max_speed set_target_speed].
  split; [split; [reflexivity | split_minmax; lra] |].
  split; [split; [reflexivity | split_minmax; lra] |].
  unfold on_key. cbn [String.eqb Ascii.eqb Bool.eqb].
  unfold set_target_speed.
  cbn [fan_type angle speed max_speed is_on oscillate oscillate_angle
       oscillate_direction oscillate_range blade_count lighting_mode
       blade_length blade_width motor_radius has_stand tilt_angle
       acceleration deceleration target_speed current_speed blade_color
       motor_color stand_color].
  repeat split; intros H; repeat f_equal; split_minmax; lra.
Qed.

Lemma speed_keys_witness :
  0 <= target_speed (init "ceiling") <= max_speed (init "ceiling") /\
  exists u,
    on_key "up" (init "ceiling") = Some u /\ target_speed u = 2.5 /\
    on_key "down" u = Some (init "ceiling").
Proof.
  assert (Hts : 0 <= target_speed (init "ceiling") <= max_speed (init "ceiling"))
    by (simpl; lra).
  split; [exact Hts |].
  destruct (speed_keys (init "ceiling") Hts)
    as (u & d & Eu & _ & (Etu & _) & _ & Hback & _).
  exists u. split; [exact Eu |]. split.
  - rewrite Etu. simpl. split_minmax; lra.
  - apply Hback. simpl. lra.
Defined.

Lemma run_paused (dts : list R) :
  forall s, oscillate s = false ->
  oscillate (run s dts) = false /\
  oscillate_angle (run s dts) = oscillate_angle s /\
  oscillate_direction (run s dts) = oscillate_direction s.
Proof.
  induction dts as [|dt dts IH]; intros s Hosc; [auto |].
  rewrite run_cons.
  destruct (update_physics_paused s dt Hosc) as [Ea Ed].
  destruct (IH (update_physics s dt)) as (Ho & Ea' & Ed').
  - rewrite update_physics_oscillate. exact Hosc.
  - rewrite Ea', Ed', Ea, Ed. auto.
Qed.

(** X12: The space key halts the sweep without resetting it: however many
    frames pass while it is off, the sweep resumes from the angle and in
    the direction at which it was halted. *)
Theorem oscillate_key_pause (s : Fan3D) (dts : list R) :
  oscillate s = true ->
  exists p r,
    on_key " " s = Some p /\ oscillate p = false /\
    on_key " " (run p dts) = Some r /\ oscillate r = true /\
    oscillate_angle r = oscillate_angle s /\
    oscillate_direction r = oscillate_direction s.
Proof.
  intros Hosc.
  exists (set_oscillate (negb (oscillate s)) s).
  set (p := set_oscillate (negb (oscillate s)) s).
  assert (Hp : oscillate p = false) by (unfold p; simpl; rewrite Hosc; reflexivity).
  destruct (run_paused dts p Hp) as (Ho & Ea & Ed).
  exists (set_oscillate (negb (oscillate (run p dts))) (run p dts)).
  split; [reflexivity |]. split; [exact Hp |]. split; [reflexivity |].
  cbn [oscillate oscillate_angle oscillate_direction set_oscillate].
  rewrite Ho, Ea, Ed. repeat split; reflexivity.
Qed.

Lemma oscillate_key_pause_witness :
  let s := run (set_oscillate true (init "table")) (repeat 0.016 10) in
  oscillate s = true /\
  exists p r,
    on_key " " s = Some p /\
    on_key " " (run p (repeat 0.016 100)) = Some r /\
    oscillate_angle r = oscillate_angle s.
Proof.
  intros s.
  assert (Hosc : oscillate s = true).
  { unfold s. rewrite (run_preserves oscillate update_physics_oscillate).
    reflexivity. }
  split; [exact Hosc |].
  destruct (oscillate_key_pause s (repeat 0.016 100) Hosc)
    as (p & r & E1 & _ & E2 & _ & Ea & _).
  exists p, r. auto.
Defined.

(** X13: The keys [1] to [5] select the fan type of that position and install
    its configuration, and leave angle, speeds, power, oscillation and
    lighting as they are; a key that is none of the handled ones changes
    nothing. *)
Theorem type_keys (s : Fan3D) :
  (forall k : nat, (k < 5)%nat ->
   exists s',
     on_key (nth k ["1"; "2"; "3"; "4"; "5"]%string ""%string) s = Some s' /\
     fan_type s' = nth k types ""%string /\ configured s' /\
     (angle s' = angle s /\ current_speed s' = current_speed s /\
      target_speed s' = target_speed s /\ is_on s' = is_on s /\
      oscillate s' = oscillate s /\ oscillate_angle s' = oscillate_angle s /\
      oscillate_direction s' = oscillate_direction s /\
      lighting_mode s' = lighting_mode s)) /\
  (forall key : string,
   ~ In key ["up"; "down"; " "; "o"; "l"; "1"; "2"; "3"; "4"; "5"]%string ->
   on_key key s = Some s).
Proof.
  split.
  - intros k Hk.
    destruct k as [|[|[|[|[|k]]]]]; try lia;
      (eexists; split; [reflexivity |]; split; [reflexivity |];
       split; [apply configured_configure_fan | repeat split; reflexivity]).
  - intros key Hout. unfold on_key.
    repeat match goal with
    | |- context [String.eqb key ?k] =>
        destruct (String.eqb_spec key k) as [E | _];
        [exfalso; apply Hout; rewrite E; simpl; tauto |]
    end.
    rewrite list_index_absent; [reflexivity |].
    intros Hin. apply Hout. simpl in *. tauto.
Qed.

Lemma type_keys_witness :
  (3 < 5)%nat /\
  exists s', on_key "4" (init "ceiling") = Some s' /\
             fan_type s' = "industrial"%string /\ blade_length s' = 2.0.
Proof.
  assert (Hk : (3 < 5)%nat) by lia.
  split; [exact Hk |].
  destruct (proj1 (type_keys (init "ceiling")) 3%nat Hk)
    as (s' & E & Et & _ & _).
  exists s'. split; [exact E |]. split; [exact Et |].
  injection E as <-. reflexivity.
Defined.

(** ** Rings of the meshes *)

Lemma nth_error_ring (theta : list R) (r z : R) (j : nat) (t : R) :
  nth_error theta j = Some t ->
  nth_error (ring theta r z) j = Some (mkVec3 (r * cos t) (r * sin t) z).
Proof. intros H. unfold ring. rewrite nth_error_map, H. reflexivity. Qed.

(** ** The stand *)

Lemma stand_pole_ring (s : Fan3D) (i j : nat) :
  has_stand s = true -> (i < 20)%nat -> (j < 16)%nat ->
  exists r,
    nth_error (fst (generate_stand s)) (i * 16 + j) =
    nth_error (ring stand_theta r
                 (- pole_height s
                  + INR i * ((-0.2 - - pole_height s) / INR (20 - 1)))) j.
Proof.
  intros Hs Hi Hj. unfold generate_stand. rewrite Hs. cbn [negb fst].
  eexists.
  rewrite nth_error_app1.
  - rewrite (nth_error_flat_map_const _ 16 _
               (fun z => eq_trans (length_ring _ _ _) length_stand_theta)
               i j _ (nth_error_np_linspace _ _ 20 i Hi) Hj).
    reflexivity.
  - rewrite (length_flat_map_const _ 16)
      by (intros z; rewrite length_ring; apply length_stand_theta).
    rewrite length_np_linspace. lia.
Qed.

(** X15: A fan with a stand gets 352 stand vertices, of which the faces use
    only the first 320, the pole: the 32 vertices of the base are in no
    face.  The pole starts at [z = -pole_height] and ends at [z = -0.2],
    the height at which the motor housing begins. *)
Theorem stand_pole_only (s : Fan3D) :
  has_stand s = true ->
  length (fst (generate_stand s)) = 352%nat /\
  Forall (Forall (valid_index 320)) (snd (generate_stand s)) /\
  (forall j : nat, (j < 16)%nat ->
   exists bottom top,
     nth_error (fst (generate_stand s)) j = Some bottom /\
     nth_error (fst (generate_stand s)) (19 * 16 + j) = Some top /\
     vz bottom = - pole_height s /\ vz top = -0.2 /\
     vz top = motor_level_z 0).
Proof.
  intros Hs. split; [apply (generate_stand_sizes s Hs) |]. split.
  - unfold generate_stand. rewrite Hs. cbn [negb snd].
    apply grid_faces_valid. rewrite length_stand_theta. simpl. lia.
  - intros j Hj.
    destruct (stand_pole_ring s 0 j Hs) as (r0 & E0); [lia | exact Hj |].
    destruct (stand_pole_ring s 19 j Hs) as (r1 & E1); [lia | exact Hj |].
    cbn [Nat.mul Nat.add] in E0.
    destruct (nth_error stand_theta j) as [t|] eqn:Et.
    + rewrite (nth_error_ring _ _ _ j t Et) in E0.
      rewrite (nth_error_ring _ _ _ j t Et) in E1.
      eexists. eexists. split; [exact E0 |]. split; [exact E1 |].
      cbn [vz]. unfold motor_level_z. simpl INR.
      repeat split; lra.
    + apply nth_error_None in Et. rewrite length_stand_theta in Et. lia.
Qed.

Lemma stand_pole_only_witness :
  has_stand (init "tower") = true /\
  length (fst (generate_stand (init "tower"))) = 352%nat /\
  Forall (Forall (valid_index 320)) (snd (generate_stand (init "tower"))).
Proof.
  assert (Hs : has_stand (init "tower") = true) by reflexivity.
  split; [exact Hs |].
  destruct (stand_pole_only (init "tower") Hs) as (Hn & Hf & _).
  split; [exact Hn | exact Hf].
Defined.

(** ** The safety cage *)

Lemma on_circle (r t : R) : (r * cos t) * (r * cos t) + (r * sin t) * (r * sin t) = r * r.
Proof.
  pose proof (sin2_cos2 t) as H. unfold Rsqr in H.
  replace (r * cos t * (r * cos t) + r * sin t * (r * sin t))
    with (r * r * (sin t * sin t + cos t * cos t)) by ring.
  rewrite H. ring.
Qed.

Lemma cage_rings_vertex (theta : list R) (cr z : R) (i j : nat) :
  length theta = 16%nat -> (i < 16)%nat -> (j < 8)%nat ->
  nth_error
    (flat_map (fun k => ring theta (cr * (INR k + 1) / INR n_rings) z)
              (range n_rings)) (j * 16 + i) =
  nth_error (ring theta (cr * (INR j + 1) / INR n_rings) z) i.
Proof.
  intros Hlen Hi Hj.
  apply (nth_error_flat_map_const _ 16 _
           (fun x => eq_trans (length_ring _ _ _) Hlen)
           j i j (nth_error_range 8 j Hj) Hi).
Qed.

(** X16: The cage is two copies of the same eight rings of sixteen points, the
    front one at [z = 0.05] and the rear one at [z = -0.15]: vertex
    [128 + k] lies straight behind vertex [k], and ring [j] has radius
    [(blade_length + 0.2) (j + 1) / 8].  Each face joins an edge of a
    front ring to the edge behind it; the faces stop short of the
    outermost ring, whose 32 vertices are in no face. *)
Theorem safety_cage_lattice (s : Fan3D) :
  (forall i j : nat, (i < 16)%nat -> (j < 8)%nat ->
   exists x y,
     nth_error (fst (generate_safety_cage s)) (j * 16 + i)
       = Some (mkVec3 x y 0.05) /\
     nth_error (fst (generate_safety_cage s)) (128 + (j * 16 + i))
       = Some (mkVec3 x y (-0.15)) /\
     x * x + y * y =
       ((blade_length s + 0.2) * (INR j + 1) / 8) *
       ((blade_length s + 0.2) * (INR j + 1) / 8)) /\
  Forall (fun face : Face =>
            exists i j : nat, (i < 15)%nat /\ (j < 7)%nat /\
              let f := Z.of_nat (j * 16 + i) in
              face = [f; f + 1; f + 128 + 1; f + 128]%Z)
         (snd (generate_safety_cage s)) /\
  Forall (Forall (fun idx => 0 <= idx < 112 \/ 128 <= idx < 240)%Z)
         (snd (generate_safety_cage s)).
Proof.
  assert (Hfaces : forall face, In face (snd (generate_safety_cage s)) ->
            exists i j : nat, (i < 15)%nat /\ (j < 7)%nat /\
              face = [Z.of_nat (j * 16 + i); Z.of_nat (j * 16 + i) + 1;
                      Z.of_nat (j * 16 + i) + 128 + 1;
                      Z.of_nat (j * 16 + i) + 128]%Z).
  { intros face Hin. unfold generate_safety_cage in Hin. cbn [snd] in Hin.
    apply List.in_flat_map in Hin. destruct Hin as (i & Hi & Hin).
    apply List.in_map_iff in Hin. destruct Hin as (j & <- & Hj).
    apply List.in_seq in Hi, Hj. unfold n_spokes, n_rings in *.
    exists i, j. split; [lia |]. split; [lia |].
    unfold cage_quad, n_spokes, n_rings.
    replace (Z.of_nat ((8 + j) * 16 + i)) with (Z.of_nat (j * 16 + i) + 128)%Z
      by lia.
    reflexivity. }
  split; [| split].
  - intros i j Hi Hj.
    set (theta := np_linspace 0 (2 * PI) n_spokes).
    assert (Hlen : length theta = 16%nat) by apply length_np_linspace.
    destruct (nth_error theta i) as [t|] eqn:Et.
    2: { apply nth_error_None in Et. lia. }
    set (r := (blade_length s + 0.2) * (INR j + 1) / INR n_rings).
    exists (r * cos t), (r * sin t).
    unfold generate_safety_cage. cbn [fst]. fold theta.
    assert (Hfront : length (flat_map (fun k => ring theta
                        ((blade_length s + 0.2) * (INR k + 1) / INR n_rings) 0.05)
                        (range n_rings)) = 128%nat).
    { rewrite (length_flat_map_const _ 16)
        by (intros k; rewrite length_ring; exact Hlen).
      rewrite length_range. reflexivity. }
    split; [| split].
    + rewrite nth_error_app1 by (rewrite Hfront; lia).
      rewrite (cage_rings_vertex theta _ 0.05 i j Hlen Hi Hj).
      apply nth_error_ring, Et.
    + rewrite nth_error_app2 by (rewrite Hfront; lia).
      rewrite Hfront.
      replace (128 + (j * 16 + i) - 128)%nat with (j * 16 + i)%nat by lia.
      rewrite (cage_rings_vertex theta _ (-0.15) i j Hlen Hi Hj).
      apply nth_error_ring, Et.
    + rewrite on_circle. unfold r, n_rings.
      replace (INR 8) with 8 by (simpl; lra). reflexivity.
  - apply List.Forall_forall. intros face Hin.
    destruct (Hfaces face Hin) as (i & j & Hi & Hj & ->).
    exists i, j. auto.
  - apply List.Forall_forall. intros face Hin.
    destruct (Hfaces face Hin) as (i & j & Hi & Hj & ->).
    repeat constructor; lia.
Qed.

Lemma safety_cage_lattice_witness :
  ((3 < 16)%nat /\ (7 < 8)%nat) /\
  exists x y,
    nth_error (fst (generate_safety_cage (init "desk"))) (7 * 16 + 3)
      = Some (mkVec3 x y 0.05) /\
    nth_error (fst (generate_safety_cage (init "desk"))) (128 + (7 * 16 + 3))
      = Some (mkVec3 x y (-0.15)).
Proof.
  assert (Hi : (3 < 16)%nat) by lia.
  assert (Hj : (7 < 8)%nat) by lia.
  split; [auto |].
  destruct (proj1 (safety_cage_lattice (init "desk")) 3%nat 7%nat Hi Hj)
    as (x & y & Ef & Eb & _).
  exists x, y. split; [exact Ef | exact Eb].
Defined.

(** ** The blade *)

Lemma flat_map_ext_in {A B : Type} (f g : A -> list B) (l : list A) :
  (forall x, In x l -> f x = g x) -> flat_map f l = flat_map g l.
Proof.
  induction l as [|x l IH]; intros H; simpl; [reflexivity |].
  rewrite (H x (or_introl eq_refl)), IH; [reflexivity |].
  intros y Hy. apply H. right. exact Hy.
Qed.

Lemma blade_profile_nth (s : Fan3D) (blade_angle : R) (i : nat) :
  (i <= num_segments)%nat ->
  nth i (blade_profile s blade_angle) (origin, origin) =
  blade_sample s blade_angle i.
Proof.
  intros Hi. apply nth_error_nth. unfold blade_profile.
  rewrite nth_error_map, nth_error_range by lia. reflexivity.
Qed.

Lemma blade_loop_closed (profile : list (Vec3 * Vec3)) (l : list nat) :
  forall m,
  fold_left (blade_segment profile) l m =
  (fst m ++ flat_map (fun i => [fst (nth i profile (origin, origin));
                                fst (nth (i + 1) profile (origin, origin));
                                snd (nth (i + 1) profile (origin, origin));
                                snd (nth i profile (origin, origin))]) l,
   snd m ++ map (fun k => quad_at (length (fst m) + 4 * k))
                (range (length l))).
Proof.
  induction l as [|i l IH]; intros m.
  - simpl. rewrite !app_nil_r. destruct m; reflexivity.
  - cbn [fold_left]. rewrite IH.
    unfold blade_segment.
    destruct (nth i profile _) as [a b] eqn:Ei,
             (nth (i + 1) profile _) as [c d] eqn:Ei1.
    cbn [fst snd flat_map length]. rewrite length_app. cbn [length].
    unfold range. rewrite <- !app_assoc. f_equal; f_equal.
    + rewrite Ei, Ei1. reflexivity.
    + cbn [seq map app]. rewrite <- seq_shift, map_map.
      unfold quad_at. f_equal.
      * replace (length (fst m) + 4 * 0)%nat with (length (fst m)) by lia.
        reflexivity.
      * apply map_ext. intros k.
        replace (length (fst m) + 4 + 4 * k)%nat
          with (length (fst m) + 4 * S k)%nat by lia.
        reflexivity.
Qed.

Lemma generate_blade_flat (s : Fan3D) (angle_offset : R) :
  generate_blade s angle_offset =
  (flat_map (blade_quad s (angle s + angle_offset)) (range num_segments),
   map (fun i => quad_at (4 * i)) (range num_segments)).
Proof.
  unfold generate_blade. rewrite blade_loop_closed.
  cbn [fst snd app length]. rewrite length_range.
  apply f_equal2; [| reflexivity].
  apply flat_map_ext_in. intros i Hi. apply List.in_seq in Hi.
  unfold blade_quad. rewrite !blade_profile_nth by lia. reflexivity.
Qed.

(** X17: The two loops of [generate_blade] as one comprehension: segment [i]
    contributes the vertices [4 i .. 4 i + 3], which are the top rail at
    [i] and [i + 1] and the bottom rail at [i + 1] and [i], and the face
    [[4 i, 4 i + 1, 4 i + 2, 4 i + 3]].  Neighbouring quads share no index:
    the edge between them is stored twice. *)
Theorem generate_blade_closed_form (s : Fan3D) (angle_offset : R) :
  generate_blade s angle_offset =
  (flat_map (blade_quad s (angle s + angle_offset)) (range 20),
   map (fun i => quad_at (4 * i)) (range 20)).
Proof. apply generate_blade_flat. Qed.

Lemma blade_vertex (s : Fan3D) (angle_offset : R) (i j : nat) :
  (i < 20)%nat -> (j < 4)%nat ->
  nth_error (fst (generate_blade s angle_offset)) (i * 4 + j) =
  nth_error (blade_quad s (angle s + angle_offset) i) j.
Proof.
  intros Hi Hj. rewrite generate_blade_flat. cbn [fst].
  apply (nth_error_flat_map_const (blade_quad s (angle s + angle_offset)) 4
           (range num_segments) (fun x => eq_refl) i j i
           (nth_error_range 20 i Hi) Hj).
Qed.

Lemma blade_sample_root (s : Fan3D) (blade_angle : R) :
  let p := mkVec3 (motor_radius s * cos blade_angle)
                  (motor_radius s * sin blade_angle) 0 in
  blade_sample s blade_angle 0 = (p, p).
Proof.
  cbv zeta. unfold blade_sample, num_segments.
  replace (INR 0 / INR 20) with 0 by (simpl; lra).
  replace (0 * PI) with 0 by lra. rewrite sin_0.
  replace (blade_angle + 0 * 15 * PI / 180) with blade_angle by lra.
  f_equal; f_equal; lra.
Qed.

(** X18: both rails of a blade start at the same point, on the hub circle
    at the blade's angle and at height 0: vertices 0 and 3 of the mesh are
    that point, so the first quad of every blade is a triangle. *)
Theorem blade_root_point (s : Fan3D) (angle_offset : R) :
  let a := angle s + angle_offset in
  let root := mkVec3 (motor_radius s * cos a) (motor_radius s * sin a) 0 in
  let vertices := fst (generate_blade s angle_offset) in
  nth_error vertices 0 = Some root /\ nth_error vertices 3 = Some root.
Proof.
  intros a root vertices. subst vertices.
  pose proof (blade_sample_root s a) as Hroot.
  cbv zeta in Hroot. fold root in Hroot.
  pose proof (blade_vertex s angle_offset 0 0 ltac:(lia) ltac:(lia)) as H0.
  pose proof (blade_vertex s angle_offset 0 3 ltac:(lia) ltac:(lia)) as H3.
  cbn [Nat.mul Nat.add] in H0, H3.
  rewrite H0, H3.
  unfold blade_quad. fold a. rewrite Hroot.
  split; reflexivity.
Qed.

Lemma rail_radius (r w c sn : R) :
  sn * sn + c * c = 1 ->
  (r * c - w * sn) * (r * c - w * sn) + (r * sn + w * c) * (r * sn + w * c)
    = r * r + w * w /\
  (r * c + w * sn) * (r * c + w * sn) + (r * sn - w * c) * (r * sn - w * c)
    = r * r + w * w.
Proof.
  intros H. split.
  - replace ((r * c - w * sn) * (r * c - w * sn)
             + (r * sn + w * c) * (r * sn + w * c))
      with ((r * r + w * w) * (sn * sn + c * c)) by ring.
    rewrite H. ring.
  - replace ((r * c + w * sn) * (r * c + w * sn)
             + (r * sn - w * c) * (r * sn - w * c))
      with ((r * r + w * w) * (sn * sn + c * c)) by ring.
    rewrite H. ring.
Qed.

Lemma blade_sample_bounds (s : Fan3D) (blade_angle : R) (k : nat) (v : Vec3) :
  0 <= motor_radius s -> 0 <= blade_length s -> (k <= 20)%nat ->
  v = fst (blade_sample s blade_angle k) \/
  v = snd (blade_sample s blade_angle k) ->
  motor_radius s * motor_radius s <= vx v * vx v + vy v * vy v
    <= (motor_radius s + blade_length s) * (motor_radius s + blade_length s)
       + blade_width s * blade_width s /\
  -0.05 <= vz v <= 0.1.
Proof.
  intros Hmr Hbl Hk Hv.
  set (t := INR k / INR num_segments).
  assert (Ht : 0 <= t <= 1).
  { unfold t, num_segments. replace (INR 20) with 20 by (simpl; lra).
    pose proof (pos_INR k). apply le_INR in Hk.
    replace (INR 20) with 20 in Hk by (simpl; lra). lra. }
  assert (Hsin : 0 <= sin (t * PI) <= 1).
  { pose proof PI_RGT_0 as Hpi. split.
    - apply sin_ge_0; nra.
    - apply SIN_bound. }
  set (S := sin (t * PI)) in *.
  set (r := motor_radius s + t * blade_length s).
  set (K := (1 - t * 0.5) * S).
  assert (HK : 0 <= K <= 1) by (unfold K; nra).
  set (w := blade_width s * (1 - t * 0.5) * S).
  assert (Hw : w * w <= blade_width s * blade_width s).
  { replace (w * w) with (blade_width s * blade_width s * (K * K))
      by (unfold w, K; ring).
    assert (HKK : 0 <= K * K <= 1) by nra.
    pose proof (Rle_0_sqr (blade_width s)) as Hsq. unfold Rsqr in Hsq. nra. }
  assert (Hr : motor_radius s <= r <= motor_radius s + blade_length s)
    by (unfold r; nra).
  assert (Hrr : motor_radius s * motor_radius s <= r * r
                <= (motor_radius s + blade_length s)
                   * (motor_radius s + blade_length s)) by nra.
  pose proof (Rle_0_sqr w) as Hww. unfold Rsqr in Hww.
  set (a := blade_angle + S * 15 * PI / 180).
  pose proof (sin2_cos2 a) as Hsc. unfold Rsqr in Hsc.
  destruct (rail_radius r w (cos a) (sin a) Hsc) as [Htop Hbot].
  destruct Hv as [-> | ->]; unfold blade_sample; cbn [fst snd vx vy vz];
    fold t; fold S; fold r; fold w; fold a.
  - rewrite Htop. split; lra.
  - rewrite Hbot. split; lra.
Qed.

Lemma blade_vertices_bounded (s : Fan3D) (angle_offset : R) (v : Vec3) :
  0 <= motor_radius s -> 0 <= blade_length s ->
  In v (fst (generate_blade s angle_offset)) ->
  motor_radius s * motor_radius s <= vx v * vx v + vy v * vy v
    <= (motor_radius s + blade_length s) * (motor_radius s + blade_length s)
       + blade_width s * blade_width s /\
  -0.05 <= vz v <= 0.1.
Proof.
  intros Hmr Hbl Hin. rewrite generate_blade_flat in Hin. cbn [fst] in Hin.
  apply List.in_flat_map in Hin. destruct Hin as (i & Hi & Hin).
  apply List.in_seq in Hi. unfold num_segments in Hi.
  unfold blade_quad in Hin. simpl In in Hin.
  destruct Hin as [<- | [<- | [<- | [<- | []]]]].
  - apply (blade_sample_bounds s (angle s + angle_offset) i); auto; lia.
  - apply (blade_sample_bounds s (angle s + angle_offset) (i + 1)); auto; lia.
  - apply (blade_sample_bounds s (angle s + angle_offset) (i + 1)); auto; lia.
  - apply (blade_sample_bounds s (angle s + angle_offset) i); auto; lia.
Qed.

(** X19: With non-negative motor radius and blade length, every vertex of a
    blade lies outside the hub circle, within
    [sqrt ((motor_radius + blade_length)^2 + blade_width^2)] of the axis,
    and between the heights -0.05 and 0.1. *)
Theorem blade_extent (s : Fan3D) (angle_offset : R) (v : Vec3) :
  0 <= motor_radius s -> 0 <= blade_length s ->
  In v (fst (generate_blade s angle_offset)) ->
  motor_radius s * motor_radius s <= vx v * vx v + vy v * vy v
    <= (motor_radius s + blade_length s) * (motor_radius s + blade_length s)
       + blade_width s * blade_width s /\
  -0.05 <= vz v <= 0.1.
Proof. apply blade_vertices_bounded. Qed.

Lemma blade_extent_witness :
  let s := init "industrial" in
  (0 <= motor_radius s /\ 0 <= blade_length s) /\
  forall v, In v (fst (generate_blade s 0)) ->
    vx v * vx v + vy v * vy v <= 2.3 * 2.3 + 0.4 * 0.4.
Proof.
  intros s.
  assert (Hmr : 0 <= motor_radius s) by (change (motor_radius s) with 0.3; lra).
  assert (Hbl : 0 <= blade_length s) by (change (blade_length s) with 2.0; lra).
  split; [auto |]. intros v Hin.
  destruct (blade_extent s 0 v Hmr Hbl Hin) as [[_ Hhi] _].
  change (motor_radius s) with 0.3 in Hhi.
  change (blade_length s) with 2.0 in Hhi.
  change (blade_width s) with 0.4 in Hhi. lra.
Defined.

(** ** The axis limits *)

Lemma max_dim_ge_1 (s : Fan3D) : 1 <= max_dim s.
Proof. unfold max_dim. destruct (has_stand s); split_minmax; lra. Qed.

Lemma configured_reach (s : Fan3D) :
  configured s ->
  0 <= motor_radius s /\ 0 <= blade_length s /\
  (motor_radius s + blade_length s) * (motor_radius s + blade_length s)
    + blade_width s * blade_width s <= max_dim s * max_dim s.
Proof.
  unfold configured. cbv zeta.
  intros (_ & Hbl & Hbw & Hmr & Hhs & _).
  unfold max_dim. rewrite Hbl, Hbw, Hmr, Hhs.
  destruct (configs_cases (fan_type s)) as [E | [E | [E | [E | E]]]];
    cbv zeta in E; rewrite E; cbn [cfg_blade_length cfg_blade_width
      cfg_motor_radius cfg_has_stand ceiling_config table_config tower_config
      industrial_config desk_config];
    split_minmax; repeat split; lra.
Qed.

Lemma square_bound (x m : R) : 0 <= m -> x * x <= m * m -> - m <= x <= m.
Proof. intros Hm H. split; nra. Qed.

(** X20: The limits [render] sets are proper intervals, at least [[-1, 1]]
    wide, and fit the model: for a fan configured from the table every
    blade vertex has its x and y inside the limits, and the stand of a fan
    that has one does not reach below the z limit. *)
Theorem axis_limits_fit (s : Fan3D) :
  (fst (xy_lim s) <= -1 /\ 1 <= snd (xy_lim s) /\
   fst (z_lim s) <= -1 /\ snd (z_lim s) = 1) /\
  (has_stand s = true -> fst (z_lim s) <= - pole_height s) /\
  (configured s ->
   forall angle_offset v, In v (fst (generate_blade s angle_offset)) ->
     fst (xy_lim s) <= vx v <= snd (xy_lim s) /\
     fst (xy_lim s) <= vy v <= snd (xy_lim s) /\
     fst (z_lim s) <= vz v <= snd (z_lim s)).
Proof.
  pose proof (max_dim_ge_1 s) as Hmax.
  split; [| split].
  - unfold xy_lim, z_lim. cbn [fst snd].
    destruct (has_stand s); repeat split; lra.
  - intros Hs. unfold z_lim, max_dim, pole_height. rewrite Hs. cbn [fst].
    destruct (String.eqb (fan_type s) "tower"); split_minmax; lra.
  - intros Hcfg angle_offset v Hin.
    destruct (configured_reach s Hcfg) as (Hmr & Hbl & Hreach).
    destruct (blade_vertices_bounded s angle_offset v Hmr Hbl Hin)
      as [[_ Hxy] Hz].
    pose proof (Rle_0_sqr (vx v)) as Hx2. pose proof (Rle_0_sqr (vy v)) as Hy2.
    unfold Rsqr in Hx2, Hy2.
    unfold xy_lim, z_lim. cbn [fst snd].
    split; [apply square_bound; lra |].
    split; [apply square_bound; lra |].
    destruct (has_stand s); lra.
Qed.

Lemma axis_limits_fit_witness :
  (has_stand (init "tower") = true /\ configured (init "tower")) /\
  fst (z_lim (init "tower")) <= - pole_height (init "tower") /\
  forall v, In v (fst (generate_blade (init "tower") 0)) ->
    fst (xy_lim (init "tower")) <= vx v <= snd (xy_lim (init "tower")).
Proof.
  assert (Hs : has_stand (init "tower") = true) by reflexivity.
  assert (Hc : configured (init "tower")) by apply configured_configure_fan.
  split; [auto |].
  destruct (axis_limits_fit (init "tower")) as (_ & Hz & Hxy).
  split; [exact (Hz Hs) |].
  intros v Hin. exact (proj1 (Hxy Hc 0 v Hin)).
Defined.

(** ** The rotation of [render] *)

Ltac mat_unfold :=
  repeat progress
    (unfold vec_mat, mat_T, mat_mul, col1, col2, col3, np_eye3, np_dot;
     cbn [row1 row2 row3 vx vy vz]).

Lemma rigid_eye : rigid np_eye3.
Proof. intros [ux uy uz] [wx wy wz]. mat_unfold. ring. Qed.

Lemma rigid_yaw (a : R) :
  rigid (mkMat3 (mkVec3 (cos a) (- sin a) 0) (mkVec3 (sin a) (cos a) 0)
                (mkVec3 0 0 1)).
Proof.
  intros [ux uy uz] [wx wy wz]. mat_unfold.
  pose proof (sin2_cos2 a) as H. unfold Rsqr in H.
  apply Rminus_diag_uniq.
  match goal with
  | |- ?e = 0 =>
      replace e with ((ux * wx + uy * wy)
                      * (sin a * sin a + cos a * cos a - 1)) by ring
  end.
  rewrite H. ring.
Qed.

Lemma rigid_pitch (a : R) :
  rigid (mkMat3 (mkVec3 1 0 0) (mkVec3 0 (cos a) (- sin a))
                (mkVec3 0 (sin a) (cos a))).
Proof.
  intros [ux uy uz] [wx wy wz]. mat_unfold.
  pose proof (sin2_cos2 a) as H. unfold Rsqr in H.
  apply Rminus_diag_uniq.
  match goal with
  | |- ?e = 0 =>
      replace e with ((uy * wy + uz * wz)
                      * (sin a * sin a + cos a * cos a - 1)) by ring
  end.
  rewrite H. ring.
Qed.

Lemma vec_mat_mul (v : Vec3) (a b : Mat3) :
  vec_mat v (mat_T (mat_mul a b)) = vec_mat (vec_mat v (mat_T b)) (mat_T a).
Proof.
  destruct v as [x y z], a as [[a11 a12 a13] [a21 a22 a23] [a31 a32 a33]],
    b as [[b11 b12 b13] [b21 b22 b23] [b31 b32 b33]].
  mat_unfold. f_equal; ring.
Qed.

Lemma rigid_mul (a b : Mat3) : rigid a -> rigid b -> rigid (mat_mul a b).
Proof.
  intros Ha Hb u v. rewrite !vec_mat_mul, Ha, Hb. reflexivity.
Qed.

Lemma rigid_rotation_matrix (s : Fan3D) : rigid (rotation_matrix s).
Proof.
  assert (Hosc : rigid (oscillation_matrix s)).
  { unfold oscillation_matrix. destruct (oscillate s);
      [apply rigid_yaw | apply rigid_eye]. }
  unfold rotation_matrix. destruct Req_dec_T; [exact Hosc |].
  apply rigid_mul; [exact Hosc | apply rigid_pitch].
Qed.

(** X21: The turn [render] applies to blades, motor housing and cage, for any
    oscillation angle and tilt, keeps every scalar product of two
    vertices, hence every length and every angle of the mesh; and an
    oscillation alone, without tilt, keeps their heights. *)
Theorem render_turn_rigid (s : Fan3D) (u v : Vec3) :
  let turn := fun w => vec_mat w (mat_T (rotation_matrix s)) in
  np_dot (turn u) (turn v) = np_dot u v /\
  np_norm (turn u) = np_norm u /\
  np_norm (vsub (turn u) (turn v)) = np_norm (vsub u v) /\
  (tilt_angle s = 0 -> vz (turn u) = vz u).
Proof.
  intros turn. pose proof (rigid_rotation_matrix s) as Hr.
  split; [apply Hr |]. split; [unfold np_norm, turn; rewrite Hr; reflexivity |].
  split.
  - assert (Hlin : vsub (turn u) (turn v) = turn (vsub u v)).
    { unfold turn, vsub. destruct u, v, (rotation_matrix s) as [[? ? ?] [? ? ?] [? ? ?]].
      mat_unfold. f_equal; ring. }
    rewrite Hlin. unfold np_norm, turn. rewrite Hr. reflexivity.
  - intros Htilt. unfold turn, rotation_matrix.
    destruct Req_dec_T; [| contradiction].
    unfold oscillation_matrix. destruct (oscillate s), u; mat_unfold; ring.
Qed.

Lemma run_keeps_tilt (s : Fan3D) (dts : list R) :
  tilt_angle (run s dts) = tilt_angle s.
Proof.
  apply (run_preserves tilt_angle).
  intros s' dt. apply (update_physics_config s' dt).
Qed.

Lemma render_turn_rigid_witness :
  let tower := run (set_oscillate true (init "tower")) (repeat 0.016 10) in
  let table := run (set_oscillate true (init "table")) (repeat 0.016 10) in
  let u := mkVec3 1 2 3 in
  (tilt_angle tower = 0 /\
   rotation_matrix tower =
     mkMat3 (mkVec3 (cos (5 * PI / 180)) (- sin (5 * PI / 180)) 0)
            (mkVec3 (sin (5 * PI / 180)) (cos (5 * PI / 180)) 0)
            (mkVec3 0 0 1)) /\
  vz (vec_mat u (mat_T (rotation_matrix tower))) = 3 /\
  (tilt_angle table = 15 /\
   np_norm (vec_mat u (mat_T (rotation_matrix table))) = np_norm u).
Proof.
  intros tower table u.
  assert (Htilt : tilt_angle tower = 0).
  { unfold tower. rewrite run_keeps_tilt. reflexivity. }
  assert (Hosc : oscillate tower = true).
  { unfold tower. rewrite (run_preserves oscillate update_physics_oscillate).
    reflexivity. }
  assert (Hangle : oscillate_angle tower = 5).
  { unfold tower.
    destruct (sweep_linear (repeat 0.016 10) (set_oscillate true (init "tower"))
                (sweeping_init_on "tower")) as [Ea _].
    - rewrite repeat_length. simpl. lra.
    - rewrite Ea, repeat_length. simpl. lra. }
  split; [split; [exact Htilt |] |].
  - unfold rotation_matrix. destruct Req_dec_T; [| contradiction].
    unfold oscillation_matrix. rewrite Hosc, Hangle. reflexivity.
  - split.
    + exact (proj2 (proj2 (proj2 (render_turn_rigid tower u u))) Htilt).
    + split.
      * unfold table. rewrite run_keeps_tilt. reflexivity.
      * exact (proj1 (proj2 (render_turn_rigid table u u))).
Defined.

(** ** Normals and intensities *)

Lemma np_dot_self_nonneg (a : Vec3) : 0 <= np_dot a a.
Proof.
  unfold np_dot.
  pose proof (Rle_0_sqr (vx a)). pose proof (Rle_0_sqr (vy a)).
  pose proof (Rle_0_sqr (vz a)). unfold Rsqr in *. lra.
Qed.

Lemma vdiv_norm_unit (a : Vec3) :
  np_norm a > 0 -> np_dot (vdiv a (np_norm a)) (vdiv a (np_norm a)) = 1.
Proof.
  intros Hpos.
  assert (Hsq : np_norm a * np_norm a = np_dot a a)
    by (apply sqrt_sqrt, np_dot_self_nonneg).
  set (k := np_norm a) in *.
  replace (np_dot (vdiv a k) (vdiv a k)) with (np_dot a a / (k * k)).
  - rewrite Hsq. field. rewrite <- Hsq. nra.
  - unfold np_dot, vdiv. cbn [vx vy vz]. field. lra.
Qed.

Lemma light_dir_unit : np_dot light_dir light_dir = 1.
Proof.
  unfold light_dir. apply vdiv_norm_unit.
  apply sqrt_lt_R0. unfold np_dot. cbn [vx vy vz]. lra.
Qed.

Lemma face_normal_dot (v0 v1 v2 : Vec3) :
  np_dot (face_normal v0 v1 v2) (face_normal v0 v1 v2) = 1.
Proof.
  unfold face_normal. destruct Rgt_dec as [Hpos | _].
  - apply vdiv_norm_unit, Hpos.
  - unfold np_dot. cbn [vx vy vz]. ring.
Qed.

(** Lagrange's identity in three dimensions, as an inequality. *)
Lemma cauchy_schwarz3 (a b : Vec3) :
  np_dot a b * np_dot a b <= np_dot a a * np_dot b b.
Proof.
  pose proof (np_dot_self_nonneg (np_cross a b)) as H.
  destruct a as [ax ay az], b as [bx by_ bz].
  unfold np_dot, np_cross in *. cbn [vx vy vz] in *. nra.
Qed.

Lemma unit_dot_range (a b : Vec3) :
  np_dot a a = 1 -> np_dot b b = 1 -> -1 <= np_dot a b <= 1.
Proof.
  intros Ha Hb. pose proof (cauchy_schwarz3 a b) as H.
  rewrite Ha, Hb in H. split; nra.
Qed.

(** X22: The normal of a face is always a unit vector: the normalised cross
    product of its first two edges, or [(0, 0, 1)] when the three points
    are collinear or equal, so a degenerate face is shaded and never
    divides by zero.  Its scalar product with the light direction is
    therefore in [[-1, 1]]. *)
Theorem face_normal_unit (v0 v1 v2 : Vec3) :
  np_norm (face_normal v0 v1 v2) = 1 /\
  -1 <= np_dot (face_normal v0 v1 v2) light_dir <= 1 /\
  (np_cross (vsub v1 v0) (vsub v2 v0) = mkVec3 0 0 0 ->
   face_normal v0 v1 v2 = mkVec3 0 0 1).
Proof.
  split; [| split].
  - unfold np_norm. rewrite face_normal_dot. apply sqrt_1.
  - apply unit_dot_range; [apply face_normal_dot | apply light_dir_unit].
  - intros Hzero. unfold face_normal. rewrite Hzero.
    destruct Rgt_dec as [Hpos | _]; [| reflexivity].
    exfalso. unfold np_norm, np_dot in Hpos. cbn [vx vy vz] in Hpos.
    replace (0 * 0 + 0 * 0 + 0 * 0) with 0 in Hpos by ring.
    rewrite sqrt_0 in Hpos. lra.
Qed.

Lemma face_normal_unit_witness :
  let p := mkVec3 1 2 3 in
  np_cross (vsub p p) (vsub p p) = mkVec3 0 0 0 /\
  face_normal p p p = mkVec3 0 0 1.
Proof.
  intros p.
  assert (Hzero : np_cross (vsub p p) (vsub p p) = mkVec3 0 0 0).
  { unfold np_cross, vsub, p. cbn [vx vy vz]. f_equal; ring. }
  split; [exact Hzero |].
  exact (proj2 (proj2 (face_normal_unit p p p)) Hzero).
Defined.

Lemma face_intensity_levels (mode : string) (n : Vec3) :
  np_dot n n = 1 ->
  let lit := Rmax 0 (np_dot n light_dir) in
  0 <= lit <= 1 /\
  (mode = "flat"%string -> face_intensity mode n = 1) /\
  (mode = "realistic"%string ->
   face_intensity mode n = Rmin 1 (0.3 + lit * 0.7 + lit ^ 3 * 0.5) /\
   0.3 <= face_intensity mode n) /\
  (mode <> "flat"%string -> mode <> "realistic"%string ->
   face_intensity mode n = 0.2 + lit * 0.8 /\
   0.2 <= face_intensity mode n).
Proof.
  intros Hn lit.
  pose proof (unit_dot_range n light_dir Hn light_dir_unit) as Hd.
  assert (Hlit : 0 <= lit <= 1) by (unfold lit; split_minmax; lra).
  split; [exact Hlit |].
  unfold face_intensity. fold lit.
  split; [| split].
  - intros ->. cbn [String.eqb Ascii.eqb Bool.eqb].
    unfold np_clip. split_minmax; lra.
  - intros ->. cbn [String.eqb Ascii.eqb Bool.eqb].
    assert (Hcube : 0 <= lit ^ 3) by (simpl; nra).
    unfold np_clip. split; split_minmax; lra.
  - intros Hflat Hreal.
    destruct (String.eqb_spec mode "realistic") as [E | _]; [contradiction |].
    destruct (String.eqb_spec mode "flat") as [E | _]; [contradiction |].
    unfold np_clip. split; split_minmax; lra.
Qed.

(** X23: The intensity of a face by lighting mode, with [lit] the positive
    part of the scalar product of its normal and the light direction
    (between 0 and 1): 1 in flat mode; [min(1, 0.3 + 0.7 lit + 0.5 lit^3)]
    in realistic mode; [0.2 + 0.8 lit] in every other mode, where the
    clip never cuts.  A face turned away from the light ([lit = 0]) gets
    exactly the ambient 0.3 or 0.2. *)
Theorem shading_levels (mode : string) (v0 v1 v2 : Vec3) :
  let n := face_normal v0 v1 v2 in
  let lit := Rmax 0 (np_dot n light_dir) in
  0 <= lit <= 1 /\
  (mode = "flat"%string -> face_intensity mode n = 1) /\
  (mode = "realistic"%string ->
   face_intensity mode n = Rmin 1 (0.3 + lit * 0.7 + lit ^ 3 * 0.5) /\
   0.3 <= face_intensity mode n) /\
  (mode <> "flat"%string -> mode <> "realistic"%string ->
   face_intensity mode n = 0.2 + lit * 0.8 /\
   0.2 <= face_intensity mode n).
Proof.
  intros n lit. apply face_intensity_levels, face_normal_dot.
Qed.

Lemma shading_levels_witness :
  let n := face_normal (mkVec3 0 0 0) (mkVec3 1 0 0) (mkVec3 0 1 0) in
  face_intensity "flat" n = 1 /\ 0.3 <= face_intensity "realistic" n /\
  0.2 <= face_intensity "dramatic" n.
Proof.
  intros n.
  destruct (shading_levels "flat" (mkVec3 0 0 0) (mkVec3 1 0 0) (mkVec3 0 1 0))
    as (_ & Hflat & _).
  destruct (shading_levels "realistic" (mkVec3 0 0 0) (mkVec3 1 0 0)
              (mkVec3 0 1 0)) as (_ & _ & Hreal & _).
  destruct (shading_levels "dramatic" (mkVec3 0 0 0) (mkVec3 1 0 0)
              (mkVec3 0 1 0)) as (_ & _ & _ & Hdram).
  split; [exact (Hflat eq_refl) |].
  split; [exact (proj2 (Hreal eq_refl)) |].
  apply Hdram; discriminate.
Defined.

Lemma tint_one (color : RGBA) : tint color 1 = color.
Proof. destruct color. unfold tint. cbn [red green blue alpha]. f_equal; ring. Qed.

(** X24: In flat mode [apply_lighting] returns the base colour itself, once
    per face of three or more indices. *)
Theorem flat_lighting_plain (s : Fan3D) (vertices : list Vec3)
    (faces : list Face) (color : RGBA) :
  lighting_mode s = "flat"%string ->
  Forall (readable vertices) faces ->
  apply_lighting s vertices faces color =
  Some (repeat color (length (List.filter shaded faces))).
Proof.
  intros Hflat Hread.
  destruct (apply_lighting_readable s vertices faces color Hread)
    as (out & -> & _ & Hout & _).
  f_equal. induction Hout as [|face c fs cs Hc _ IH]; [reflexivity |].
  cbn [length repeat]. rewrite <- IH. f_equal.
  destruct Hc as (i0 & i1 & i2 & v0 & v1 & v2 & _ & _ & _ & _ & ->).
  rewrite Hflat.
  rewrite (proj1 (proj2 (face_intensity_levels "flat" (face_normal v0 v1 v2)
                           (face_normal_dot v0 v1 v2))) eq_refl).
  apply tint_one.
Qed.

Lemma flat_lighting_plain_witness :
  let s := set_lighting_mode "flat" (init "ceiling") in
  (lighting_mode s = "flat"%string /\
   Forall (readable sample_vertices) sample_faces) /\
  apply_lighting s sample_vertices sample_faces (blade_color s) =
  Some [blade_color s; blade_color s].
Proof.
  intros s.
  assert (Hflat : lighting_mode s = "flat"%string) by reflexivity.
  assert (Hread : Forall (readable sample_vertices) sample_faces).
  { unfold readable, py_valid_index, sample_faces.
    repeat constructor; simpl; try lia; discriminate. }
  split; [auto |].
  exact (flat_lighting_plain s sample_vertices sample_faces (blade_color s)
           Hflat Hread).
Defined.
